(** * Ingenic JZ4740 PWM driver (drivers/pwm/pwm-jz4740.c)

    A shallow embedding of the driver's six operations (request, free,
    enable, disable, config, set_polarity) as programs of a small
    state-and-trap monad over a [world] that holds the TCU register file,
    the clock framework's bookkeeping, the TCU channel lease table, the
    driver's [clks] array and a log of every call made to the kernel
    services the driver consumes. *)

From Stdlib Require Import ZArith List String Bool Lia Wellfounded DecimalString.
From Equations Require Import Equations.
Import ListNotations.

Local Open Scope Z_scope.

(* ===================================================================== *)
(** ** C integer types                                                    *)
(* ===================================================================== *)

(** The driver mixes [int], [unsigned int], [unsigned long] and
    [unsigned long long].  The width of [long] depends on the target: the
    JZ47xx SoCs are 32-bit MIPS, a COMPILE_TEST build may be 64-bit. *)
Inductive arch : Type := ILP32 | LP64.

Definition BITS_PER_LONG (a : arch) : Z :=
  match a with ILP32 => 32 | LP64 => 64 end.

(** Conversion to [unsigned int] / [uint32_t]. *)
Definition u32 (x : Z) : Z := x mod 2 ^ 32.

(** Conversion to [unsigned long long] / [uint64_t]. *)
Definition u64 (x : Z) : Z := x mod 2 ^ 64.

(** Conversion to [unsigned long]. *)
Definition to_ulong (a : arch) (x : Z) : Z := x mod 2 ^ BITS_PER_LONG a.

Definition INT_MIN : Z := - 2 ^ 31.
Definition INT_MAX : Z := 2 ^ 31 - 1.

(** [BIT(nr)] is [1UL << nr]. *)
Definition BIT (a : arch) (nr : nat) : Z := to_ulong a (Z.shiftl 1 (Z.of_nat nr)).

Definition EINVAL : Z := 22.
Definition EBUSY : Z := 16.

Definition NUM_PWM : nat := 8.

(* ===================================================================== *)
(** ** The TCU register file                                              *)
(* ===================================================================== *)

(** The register names of <linux/mfd/ingenic-tcu.h>.  The per-channel
    macros [TCU_REG_TCSRc(c)], ... take the channel number. *)
Inductive tcu_reg : Type :=
| TCU_REG_TER                 (* global running status, one bit per channel *)
| TCU_REG_TESR                (* global counter-start trigger *)
| TCU_REG_TECR                (* global counter-stop trigger *)
| TCU_REG_TCSRc (c : nat)     (* per-channel control *)
| TCU_REG_TDFRc (c : nat)     (* per-channel period ("data full") *)
| TCU_REG_TDHRc (c : nat)     (* per-channel duty ("data half") *)
| TCU_REG_TCNTc (c : nat).    (* per-channel live counter *)

Definition tcu_reg_eq_dec (r s : tcu_reg) : {r = s} + {r <> s}.
Proof. decide equality; apply Nat.eq_dec. Defined.

Definition upd {K V : Type} (eq_dec : forall x y : K, {x = y} + {x <> y})
  (f : K -> V) (k : K) (v : V) : K -> V :=
  fun x => if eq_dec x k then v else f x.

(** Modelled from the spec: the TCU hardware behind the regmap is not part
    of the sources.  The spec's register model has a global counter-start
    trigger register and a global counter-stop trigger register with one
    bit per channel, and a global running-status register with one bit per
    channel; a store to a trigger register raises (start) or lowers (stop)
    the written channels' bits of the running status.  Every other register
    holds what was last stored in it. *)
Definition tcu_store (regs : tcu_reg -> Z) (r : tcu_reg) (v : Z) : tcu_reg -> Z :=
  match r with
  | TCU_REG_TESR =>
      upd tcu_reg_eq_dec regs TCU_REG_TER (Z.lor (regs TCU_REG_TER) v)
  | TCU_REG_TECR =>
      upd tcu_reg_eq_dec regs TCU_REG_TER (Z.land (regs TCU_REG_TER) (Z.lnot v))
  | _ => upd tcu_reg_eq_dec regs r v
  end.

(* ===================================================================== *)
(** ** Clocks, platform and world                                         *)
(* ===================================================================== *)

(** A [struct clk] is identified by a number. *)
Definition clk : Type := nat.

(** What [clk_get] hands back: a clock, or [ERR_PTR(-errno)]. *)
Inductive clk_ptr : Type :=
| CLK (k : clk)
| ERR_PTR (errno : positive).

Definition PTR_ERR (errno : positive) : Z := Z.neg errno.

(** The parts of the platform that the driver only consumes: the width of
    [long], the three control-register masks of <linux/mfd/ingenic-tcu.h>
    (the header is not among the sources, so no value is assumed for
    them), and how the clock framework answers. *)
Record platform : Type := {
  plat_arch : arch;
  TCU_TCSR_PWM_EN : Z;            (* PWM pin output enable *)
  TCU_TCSR_PWM_SD : Z;            (* abrupt shutdown *)
  TCU_TCSR_PWM_INITL_HIGH : Z;    (* initial output level *)
  clk_lookup : string -> clk_ptr;       (* result of clk_get by name *)
  clk_enable_status : clk -> Z;         (* result of clk_prepare_enable *)
  clk_rounding : clk -> Z -> Z          (* the long that clk_round_rate returns *)
}.

(** Calls made to the services the driver consumes, in program order.  A
    [struct clk *] is an [option clk], NULL being [None]. *)
Inductive event : Type :=
| EvTcuRequestChannel (c : nat)
| EvTcuReleaseChannel (c : nat)
| EvClkGet (name : string)
| EvClkPut (k : option clk)
| EvClkPrepareEnable (k : option clk)
| EvClkDisableUnprepare (k : option clk)
| EvClkGetRate (k : option clk)
| EvClkRoundRate (k : option clk) (rate : Z)
| EvClkSetRate (k : option clk) (rate : Z)
| EvRegmapRead (r : tcu_reg)
| EvRegmapWrite (r : tcu_reg) (val : Z)
| EvRegmapUpdateBits (r : tcu_reg) (mask val : Z).

Record world : Type := {
  tcu_regs : tcu_reg -> Z;          (* register file behind jz->map *)
  tcu_leased : nat -> bool;         (* TCU channel lease table *)
  clk_refs : clk -> nat;            (* references taken with clk_get *)
  clk_enabled : clk -> nat;         (* prepare/enable count *)
  clk_rate : clk -> Z;              (* current rate in Hz *)
  jz_clks : nat -> option clk;      (* jz->clks[], NULL is None *)
  log : list event
}.

(* ===================================================================== *)
(** ** What the consumed services do                                      *)
(* ===================================================================== *)

(** Modelled from the spec: the regmap API of <linux/regmap.h> is not among
    the sources; it provides atomic read, write and update-bits of named
    registers.  Update-bits replaces the bits under [mask] by those of
    [val] and keeps the others. *)
Definition regmap_effect (e : event) (regs : tcu_reg -> Z) : tcu_reg -> Z :=
  match e with
  | EvRegmapWrite r val => tcu_store regs r val
  | EvRegmapUpdateBits r mask val =>
      let orig := regs r in
      let tmp := Z.land orig (Z.lnot mask) in
      let tmp := Z.lor tmp (Z.land val mask) in
      tcu_store regs r (u32 tmp)
  | _ => regs
  end.

(** Modelled from the spec: the TCU channel lease of the ingenic-tcu MFD
    driver is not among the sources.  A channel is leased to one consumer
    at a time; a request for a leased channel fails and leaves the lease
    untouched. *)
Definition lease_effect (e : event) (leased : nat -> bool) : nat -> bool :=
  match e with
  | EvTcuRequestChannel c => if leased c then leased else upd Nat.eq_dec leased c true
  | EvTcuReleaseChannel c => upd Nat.eq_dec leased c false
  | _ => leased
  end.

(** Modelled from the spec: the clock framework of <linux/clk.h> is not
    among the sources.  A clock handle is acquired and released, prepared
    and enabled, and supports get-rate, round-rate (a query that changes
    nothing) and set-rate.  As in the common clock framework, a NULL clock
    has rate 0 and accepts every call. *)
Definition clk_refs_effect (P : platform) (e : event) (refs : clk -> nat) : clk -> nat :=
  match e with
  | EvClkGet name =>
      match clk_lookup P name with
      | CLK k => upd Nat.eq_dec refs k (S (refs k))
      | ERR_PTR _ => refs
      end
  | EvClkPut (Some k) => upd Nat.eq_dec refs k (pred (refs k))
  | _ => refs
  end.

Definition clk_enabled_effect (P : platform) (e : event) (en : clk -> nat) : clk -> nat :=
  match e with
  | EvClkPrepareEnable (Some k) =>
      if clk_enable_status P k =? 0 then upd Nat.eq_dec en k (S (en k)) else en
  | EvClkDisableUnprepare (Some k) => upd Nat.eq_dec en k (pred (en k))
  | _ => en
  end.

Definition clk_rate_effect (e : event) (rates : clk -> Z) : clk -> Z :=
  match e with
  | EvClkSetRate (Some k) rate => upd Nat.eq_dec rates k rate
  | _ => rates
  end.

(** The world after a call: each service acts on its own part, and the
    call is logged. *)
Definition effect (P : platform) (e : event) (w : world) : world :=
  {| tcu_regs := regmap_effect e (tcu_regs w);
     tcu_leased := lease_effect e (tcu_leased w);
     clk_refs := clk_refs_effect P e (clk_refs w);
     clk_enabled := clk_enabled_effect P e (clk_enabled w);
     clk_rate := clk_rate_effect e (clk_rate w);
     jz_clks := jz_clks w;
     log := log w ++ [e] |}.

(** The world after a sequence of calls. *)
Definition effects (P : platform) (evs : list event) (w : world) : world :=
  fold_left (fun w e => effect P e w) evs w.

(** The driver's own store [jz->clks[c] = k]. *)
Definition set_jz_clks (c : nat) (k : option clk) (w : world) : world :=
  {| tcu_regs := tcu_regs w; tcu_leased := tcu_leased w; clk_refs := clk_refs w;
     clk_enabled := clk_enabled w; clk_rate := clk_rate w;
     jz_clks := upd Nat.eq_dec (jz_clks w) c k; log := log w |}.

(* ===================================================================== *)
(** ** The monad of driver code                                           *)
(* ===================================================================== *)

(** A computation ends with a value and a new world, or traps on an
    integer division by zero. *)
Inductive result (A : Type) : Type :=
| Done (a : A) (w : world)
| DivideError.

Arguments Done {A} a w.
Arguments DivideError {A}.

Definition M (A : Type) : Type := world -> result A.

Definition ret {A : Type} (a : A) : M A := fun w => Done a w.

Definition bind {A B : Type} (m : M A) (k : A -> M B) : M B :=
  fun w => match m w with
           | Done a w' => k a w'
           | DivideError => DivideError
           end.

Declare Scope drv_scope.
Delimit Scope drv_scope with drv.
Notation "x <- m ;; k" := (bind m (fun x => k))
  (at level 61, m at next level, right associativity) : drv_scope.
Notation "m ;; k" := (bind m (fun _ => k))
  (at level 61, right associativity) : drv_scope.
Local Open Scope drv_scope.

Definition get_world : M world := fun w => Done w w.
Definition modify (f : world -> world) : M unit := fun w => Done tt (f w).
Definition when (b : bool) (m : M unit) : M unit := if b then m else ret tt.

(** Modelled from the spec: [do_div] of <asm/div64.h> is not among the
    sources.  It replaces its 64-bit first argument by the truncating
    quotient; the kernel macro takes the divisor as a [uint32_t].  A zero
    divisor traps. *)
Definition do_div (n base : Z) : M Z :=
  fun w => if u32 base =? 0 then DivideError else Done (n / u32 base) w.

Section Driver.

Variable P : platform.

Let A := plat_arch P.

(** A call to a consumed service. *)
Definition perform (e : event) : M unit := modify (effect P e).

(* ===================================================================== *)
(** ** Entry points of the consumed services                              *)
(* ===================================================================== *)

(** Modelled from the spec: the entry points of the register interface,
    [regmap_read(map, reg, &val)], [regmap_write(map, reg, val)] and
    [regmap_update_bits(map, reg, mask, val)], are not among the sources;
    their values are [unsigned int], and each call acts through
    [regmap_effect]. *)
Definition regmap_read (r : tcu_reg) : M Z :=
  w <- get_world ;;
  perform (EvRegmapRead r) ;;
  ret (u32 (tcu_regs w r)).

Definition regmap_write (r : tcu_reg) (val : Z) : M unit :=
  perform (EvRegmapWrite r (u32 val)).

Definition regmap_update_bits (r : tcu_reg) (mask val : Z) : M unit :=
  perform (EvRegmapUpdateBits r (u32 mask) (u32 val)).

(** Modelled from the spec: [ingenic_tcu_request_channel] and
    [ingenic_tcu_release_channel] are not among the sources; a request
    fails with [-EBUSY] on a leased channel, and each call acts through
    [lease_effect]. *)
Definition ingenic_tcu_request_channel (c : nat) : M Z :=
  w <- get_world ;;
  perform (EvTcuRequestChannel c) ;;
  ret (if tcu_leased w c then - EBUSY else 0).

Definition ingenic_tcu_release_channel (c : nat) : M unit :=
  perform (EvTcuReleaseChannel c).

(** Modelled from the spec: the entry points of the clock framework are
    not among the sources; each call acts through [clk_refs_effect],
    [clk_enabled_effect] and [clk_rate_effect], and answers as the platform
    tells. *)
Definition clk_get (name : string) : M clk_ptr :=
  perform (EvClkGet name) ;;
  ret (clk_lookup P name).

Definition clk_put (k : option clk) : M unit :=
  perform (EvClkPut k).

Definition clk_prepare_enable (k : option clk) : M Z :=
  perform (EvClkPrepareEnable k) ;;
  ret (match k with Some k => clk_enable_status P k | None => 0 end).

Definition clk_disable_unprepare (k : option clk) : M unit :=
  perform (EvClkDisableUnprepare k).

Definition clk_get_rate (k : option clk) : M Z :=
  w <- get_world ;;
  perform (EvClkGetRate k) ;;
  ret (match k with Some k => to_ulong A (clk_rate w k) | None => 0 end).

Definition clk_round_rate (k : option clk) (rate : Z) : M Z :=
  perform (EvClkRoundRate k rate) ;;
  ret (match k with Some k => clk_rounding P k rate | None => 0 end).

Definition clk_set_rate (k : option clk) (rate : Z) : M unit :=
  perform (EvClkSetRate k rate).

(* ===================================================================== *)
(** ** The driver                                                         *)
(* ===================================================================== *)

Record pwm_device : Type := { hwpwm : nat }.

Inductive pwm_polarity : Type := PWM_POLARITY_NORMAL | PWM_POLARITY_INVERSED.

(** [snprintf(clk_name, sizeof(clk_name), "timer%u", pwm->hwpwm)] with
    [char clk_name[16]]. *)
Definition clk_name (c : nat) : string :=
  substring 0 15 ("timer" ++ NilEmpty.string_of_uint (Nat.to_uint c)).

Definition jz4740_pwm_request (pwm : pwm_device) : M Z :=
  ret_ <- ingenic_tcu_request_channel (hwpwm pwm) ;;
  if negb (ret_ =? 0) then ret ret_
  else
    c <- clk_get (clk_name (hwpwm pwm)) ;;
    match c with
    | ERR_PTR e =>
        (* err_free_channel *)
        ingenic_tcu_release_channel (hwpwm pwm) ;;
        ret (PTR_ERR e)
    | CLK k =>
        ret_ <- clk_prepare_enable (Some k) ;;
        if negb (ret_ =? 0) then
          (* err_clk_put, falling through to err_free_channel *)
          clk_put (Some k) ;;
          ingenic_tcu_release_channel (hwpwm pwm) ;;
          ret ret_
        else
          modify (set_jz_clks (hwpwm pwm) (Some k)) ;;
          ret 0
    end.

Definition jz4740_pwm_free (pwm : pwm_device) : M unit :=
  w <- get_world ;;
  let clk := jz_clks w (hwpwm pwm) in
  clk_disable_unprepare clk ;;
  clk_put clk ;;
  ingenic_tcu_release_channel (hwpwm pwm).

Definition jz4740_pwm_enable (pwm : pwm_device) : M Z :=
  (* Enable PWM output *)
  regmap_update_bits (TCU_REG_TCSRc (hwpwm pwm))
                     (TCU_TCSR_PWM_EN P) (TCU_TCSR_PWM_EN P) ;;
  (* Start counter *)
  regmap_write TCU_REG_TESR (BIT A (hwpwm pwm)) ;;
  ret 0.

Definition jz4740_pwm_disable (pwm : pwm_device) : M unit :=
  (* Disable PWM output *)
  regmap_update_bits (TCU_REG_TCSRc (hwpwm pwm)) (TCU_TCSR_PWM_EN P) 0 ;;
  (* Stop counter *)
  regmap_write TCU_REG_TECR (BIT A (hwpwm pwm)).

(** How the [for (;;)] loop of [jz4740_pwm_config] is left: by [break]
    with the accepted rate and tick count, or by [return]. *)
Inductive loop_exit : Type :=
| Break (rate tmp : Z)
| Return (r : Z).

(** The loop's variant: [rate] is an [unsigned long] that strictly
    decreases. *)
Definition ulong_lt (x y : Z) : Prop := 0 <= x < y.

Lemma ulong_lt_wf : well_founded ulong_lt.
Proof.
  apply (wf_incl _ _ (fun x y => (Z.to_nat x < Z.to_nat y)%nat)).
  - intros x y [H0 H1]. apply Z2Nat.inj_lt; lia.
  - apply (wf_inverse_image _ _ lt Z.to_nat), lt_wf.
Defined.

(** The same proof behind a lazy guard, so that [rate_search] evaluates
    without first building the accessibility proof of its argument. *)
Definition ulong_lt_guard : well_founded ulong_lt :=
  Acc_intro_generator 64 ulong_lt_wf.

#[local] Instance ulong_lt_WellFounded : WellFounded ulong_lt := ulong_lt_guard.

#[local] Opaque ulong_lt_guard.

(** The [for (;;)] loop of [jz4740_pwm_config], entered with the current
    [rate]. *)
Equations? rate_search (k : option clk) (period_ns : Z) (rate : Z) : M loop_exit
  by wf rate ulong_lt :=
rate_search k period_ns rate :=
  tmp <- do_div (u64 (u64 rate * u64 period_ns)) 1000000000 ;;
  if tmp <=? 65535 then ret (Break rate tmp)
  else
    r <- clk_round_rate k (rate / 2) ;;
    match Z_lt_dec (to_ulong A r) rate with
    | left _ => rate_search k period_ns (to_ulong A r)
    | right _ => ret (Return (- EINVAL))
    end.
Proof.
  split; [| assumption].
  apply Z.mod_pos_bound. subst A. destruct (plat_arch P); reflexivity.
Qed.

Definition jz4740_pwm_config (pwm : pwm_device) (duty_ns period_ns : Z) : M Z :=
  w <- get_world ;;
  let clk := jz_clks w (hwpwm pwm) in
  rate <- clk_get_rate clk ;;
  x <- rate_search clk period_ns rate ;;
  match x with
  | Return r => ret r
  | Break rate tmp =>
      clk_set_rate clk rate ;;
      let period := to_ulong A tmp in
      tmp <- do_div (u64 (u64 period * u64 duty_ns)) period_ns ;;
      let duty := to_ulong A (u64 (u64 period - tmp)) in
      let duty := if period <=? duty then to_ulong A (period - 1) else duty in
      tcsr <- regmap_read TCU_REG_TER ;;
      let is_enabled := negb (Z.land tcsr (BIT A (hwpwm pwm)) =? 0) in
      when is_enabled (jz4740_pwm_disable pwm) ;;
      (* Set abrupt shutdown *)
      regmap_update_bits (TCU_REG_TCSRc (hwpwm pwm))
                         (TCU_TCSR_PWM_SD P) (TCU_TCSR_PWM_SD P) ;;
      (* Reset counter to 0 *)
      regmap_write (TCU_REG_TCNTc (hwpwm pwm)) 0 ;;
      (* Set duty *)
      regmap_write (TCU_REG_TDHRc (hwpwm pwm)) duty ;;
      (* Set period *)
      regmap_write (TCU_REG_TDFRc (hwpwm pwm)) period ;;
      when is_enabled (jz4740_pwm_enable pwm ;; ret tt) ;;
      ret 0
  end.

Definition jz4740_pwm_set_polarity (pwm : pwm_device) (polarity : pwm_polarity) : M Z :=
  match polarity with
  | PWM_POLARITY_NORMAL =>
      regmap_update_bits (TCU_REG_TCSRc (hwpwm pwm)) (TCU_TCSR_PWM_INITL_HIGH P) 0
  | PWM_POLARITY_INVERSED =>
      regmap_update_bits (TCU_REG_TCSRc (hwpwm pwm))
                         (TCU_TCSR_PWM_INITL_HIGH P) (TCU_TCSR_PWM_INITL_HIGH P)
  end ;;
  ret 0.

End Driver.

(* ===================================================================== *)
(** ** Device binding                                                     *)
(* ===================================================================== *)

Definition ENOMEM : Z := 12.

(** [struct jz4740_soc_info] and its two instances. *)
Record struct_jz4740_soc_info : Type := { num_pwms : nat }.

Definition jz4740_soc_info : struct_jz4740_soc_info := {| num_pwms := 8 |}.

Definition jz4725b_soc_info : struct_jz4740_soc_info := {| num_pwms := 6 |}.

(** [jz4740_pwm_dt_ids]: compatible string and match data, without the
    empty sentinel. *)
Definition jz4740_pwm_dt_ids : list (string * struct_jz4740_soc_info) :=
  [("ingenic,jz4740-pwm"%string, jz4740_soc_info);
   ("ingenic,jz4725b-pwm"%string, jz4725b_soc_info)].

(** [struct pwm_ops], and the driver's table [jz4740_pwm_ops]. *)
Record pwm_ops : Type := {
  ops_request : pwm_device -> M Z;
  ops_free : pwm_device -> M unit;
  ops_config : pwm_device -> Z -> Z -> M Z;
  ops_set_polarity : pwm_device -> pwm_polarity -> M Z;
  ops_enable : pwm_device -> M Z;
  ops_disable : pwm_device -> M unit
}.

Definition jz4740_pwm_ops (P : platform) : pwm_ops :=
  {| ops_request := jz4740_pwm_request P;
     ops_free := jz4740_pwm_free P;
     ops_config := jz4740_pwm_config P;
     ops_set_polarity := jz4740_pwm_set_polarity P;
     ops_enable := jz4740_pwm_enable P;
     ops_disable := jz4740_pwm_disable P |}.

(** The fields of [struct pwm_chip] that probe fills in ([dev] and
    [of_xlate] are fixed pointers and left out). *)
Record pwm_chip : Type := {
  chip_ops : pwm_ops;
  chip_npwm : nat;
  chip_base : Z;
  chip_of_pwm_n_cells : nat
}.

(** What the device and the kernel answer during probe and remove:
    [device_get_match_data(dev)] (NULL is [None]), whether [devm_kzalloc]
    and [dev_get_regmap(dev->parent, NULL)] return non-NULL, and the
    returns of [pwmchip_add] and [pwmchip_remove]. *)
Record binding : Type := {
  match_data : option struct_jz4740_soc_info;
  kzalloc_ok : bool;
  parent_regmap : bool;
  pwmchip_add_status : Z;
  pwmchip_remove_status : Z
}.

Inductive bind_event : Type :=
| EvDeviceGetMatchData
| EvDevmKzalloc
| EvDevGetRegmap
| EvDevErr (msg : string)
| EvPlatformSetDrvdata
| EvPwmchipAdd (chip : pwm_chip)
| EvPwmchipRemove.

(** The text of the [dev_err] call, with its newline. *)
Definition regmap_not_found : string :=
  ("regmap not found" ++ String (Ascii.ascii_of_nat 10) EmptyString)%string.

(** [jz4740_pwm_probe]: its return value and the calls it makes. *)
Definition jz4740_pwm_probe (P : platform) (b : binding) : Z * list bind_event :=
  match match_data b with
  | None => (- EINVAL, [EvDeviceGetMatchData])
  | Some soc_info =>
      if negb (kzalloc_ok b) then
        (- ENOMEM, [EvDeviceGetMatchData; EvDevmKzalloc])
      else if negb (parent_regmap b) then
        (- EINVAL, [EvDeviceGetMatchData; EvDevmKzalloc; EvDevGetRegmap;
                    EvDevErr regmap_not_found])
      else
        let chip := {| chip_ops := jz4740_pwm_ops P;
                       chip_npwm := num_pwms soc_info;
                       chip_base := -1;
                       chip_of_pwm_n_cells := 3 |} in
        (pwmchip_add_status b,
         [EvDeviceGetMatchData; EvDevmKzalloc; EvDevGetRegmap;
          EvPlatformSetDrvdata; EvPwmchipAdd chip])
  end.

(** [jz4740_pwm_remove]. *)
Definition jz4740_pwm_remove (b : binding) : Z * list bind_event :=
  (pwmchip_remove_status b, [EvPwmchipRemove]).

(** Calls that acquire or release a lease, a clock reference or a clock
    enable. *)
Definition is_resource_call (e : event) : bool :=
  match e with
  | EvTcuRequestChannel _ | EvTcuReleaseChannel _
  | EvClkGet _ | EvClkPut _
  | EvClkPrepareEnable _ | EvClkDisableUnprepare _ => true
  | _ => false
  end.

(** The registers of channel [c], and the running status they share. *)
Definition channel_regs (c : nat) : list tcu_reg :=
  [TCU_REG_TCSRc c; TCU_REG_TDFRc c; TCU_REG_TDHRc c; TCU_REG_TCNTc c].

(* ===================================================================== *)
(** ** A sample platform and world, for evaluation                        *)
(* ===================================================================== *)

(** A JZ4740-like platform: 32-bit longs; control bits 7, 8 and 9; each
    channel has a clock ["timer<n>"], numbered [n], that can be enabled; the
    clock rounds a requested rate down to the 48 MHz base divided by a
    power of four up to 1024, as the TCU prescaler does. *)
Definition timer_clk_lookup (name : string) : clk_ptr :=
  match find (fun c => String.eqb name (clk_name c)) (seq 0 NUM_PWM) with
  | Some c => CLK c
  | None => ERR_PTR 2 (* ENOENT *)
  end.

Definition tcu_prescaled_rates : list Z :=
  [48000000; 12000000; 3000000; 750000; 187500; 46875].

Definition tcu_round_rate (rate : Z) : Z :=
  match find (fun r => r <=? rate) tcu_prescaled_rates with
  | Some r => r
  | None => 46875
  end.

Definition jz4740_platform : platform :=
  {| plat_arch := ILP32;
     TCU_TCSR_PWM_EN := 128;
     TCU_TCSR_PWM_SD := 512;
     TCU_TCSR_PWM_INITL_HIGH := 256;
     clk_lookup := timer_clk_lookup;
     clk_enable_status := fun _ => 0;
     clk_rounding := fun _ => tcu_round_rate |}.

(** A world in which every channel's clock is bound and runs at [rate],
    and the register file is [regs]. *)
Definition bound_world (regs : tcu_reg -> Z) (rate : Z) : world :=
  {| tcu_regs := regs;
     tcu_leased := fun c => (c <? NUM_PWM)%nat;
     clk_refs := fun k => if (k <? NUM_PWM)%nat then 1%nat else 0%nat;
     clk_enabled := fun k => if (k <? NUM_PWM)%nat then 1%nat else 0%nat;
     clk_rate := fun _ => rate;
     jz_clks := fun c => if (c <? NUM_PWM)%nat then Some c else None;
     log := [] |}.

(** A world right after probe: nothing leased, no clock bound. *)
Definition probed_world : world :=
  {| tcu_regs := fun _ => 0;
     tcu_leased := fun _ => false;
     clk_refs := fun _ => 0%nat;
     clk_enabled := fun _ => 0%nat;
     clk_rate := fun _ => 48000000;
     jz_clks := fun _ => None;
     log := [] |}.

(** Channel 0, and a world in which it is bound to a 48 MHz clock and is
    running (bit 0 of the running status) or idle. *)
Definition pwm0 : pwm_device := {| hwpwm := 0 |}.

Definition running_world : world :=
  bound_world (fun r => match r with TCU_REG_TER => 1 | _ => 0 end) 48000000.

Definition idle_world : world := bound_world (fun _ => 0) 48000000.

(** The world a run ends in ([w0] if it trapped). *)
Definition world_after {A : Type} (r : result A) (w0 : world) : world :=
  match r with
  | Done _ w => w
  | DivideError => w0
  end.

(** Worlds reached from the samples: channel 0 requested, then freed; the
    running channel 0 configured for 1 ms at half duty, and the idle one at
    full duty. *)
Definition requested_world : world :=
  world_after (jz4740_pwm_request jz4740_platform pwm0 probed_world) probed_world.

Definition freed_world : world :=
  world_after (jz4740_pwm_free jz4740_platform pwm0 requested_world) requested_world.

Definition configured_world : world :=
  world_after (jz4740_pwm_config jz4740_platform pwm0 500000 1000000 running_world)
    running_world.

Definition full_duty_world : world :=
  world_after (jz4740_pwm_config jz4740_platform pwm0 1000000 1000000 idle_world)
    idle_world.

(** A JZ4740 device that binds without trouble. *)
Definition jz4740_binding : binding :=
  {| match_data := Some jz4740_soc_info;
     kzalloc_ok := true;
     parent_regmap := true;
     pwmchip_add_status := 0;
     pwmchip_remove_status := 0 |}.

(** What a caller observes of a run: the returned value and the calls
    made. *)
Definition observe {A : Type} (r : result A) : option (A * list event) :=
  match r with
  | Done a w => Some (a, log w)
  | DivideError => None
  end.

(* ===================================================================== *)
(** ** The rate search as the spec words it                               *)
(* ===================================================================== *)

(** [ticks = floor(rate * period_ns / 1_000_000_000)] with a 64-bit
    intermediate. *)
Definition ticks_at (rate period_ns : Z) : Z :=
  u64 (u64 rate * u64 period_ns) / 1000000000.

(** RateSolver of the spec, started at [rate]: the list of rates at which
    the clock's rounding is queried, and the outcome.  If the tick count
    fits, the rate is accepted; otherwise the rounded rate at half the
    current rate is adopted when strictly lower, and the search fails when
    it is not. *)
Inductive RateSolver (round : Z -> Z) (period_ns : Z) :
  Z -> list Z -> loop_exit -> Prop :=
| RS_accept rate :
    ticks_at rate period_ns <= 65535 ->
    RateSolver round period_ns rate [] (Break rate (ticks_at rate period_ns))
| RS_retry rate qs x :
    65535 < ticks_at rate period_ns ->
    round (rate / 2) < rate ->
    RateSolver round period_ns (round (rate / 2)) qs x ->
    RateSolver round period_ns rate (rate / 2 :: qs) x
| RS_fail rate :
    65535 < ticks_at rate period_ns ->
    ~ round (rate / 2) < rate ->
    RateSolver round period_ns rate [rate / 2] (Return (- EINVAL)).

(** The rounding of a possibly-NULL clock, as an [unsigned long]. *)
Definition rounded (P : platform) (k : option clk) (rate : Z) : Z :=
  to_ulong (plat_arch P)
    (match k with Some k => clk_rounding P k rate | None => 0 end).

(** The clock rate that [jz4740_pwm_config] starts its search from: what
    [clk_get_rate] returns. *)
Definition initial_rate (a : arch) (w : world) (k : option clk) : Z :=
  match k with Some k => to_ulong a (clk_rate w k) | None => 0 end.

(** The tick counts that [jz4740_pwm_config] derives from the tick count
    [tmp] it left the loop with: [period = tmp], then
    [duty = period - period * duty_ns / period_ns], clamped to
    [period - 1] when not below [period]. *)
Definition period_ticks (a : arch) (tmp : Z) : Z := to_ulong a tmp.

Definition duty_ticks (a : arch) (period duty_ns period_ns : Z) : Z :=
  let tmp := u64 (u64 period * u64 duty_ns) / u32 period_ns in
  let duty := to_ulong a (u64 (u64 period - tmp)) in
  if period <=? duty then to_ulong a (period - 1) else duty.

(** The same computation in the integers, as the spec words it. *)
Definition spec_duty_ticks (period duty_ns period_ns : Z) : Z :=
  let duty := period - period * duty_ns / period_ns in
  if period <=? duty then period - 1 else duty.

(** The calls of the disable and enable sequences, and of the
    reprogramming of channel [c] in between; [en] tells whether the
    channel was running. *)
Definition disable_events (P : platform) (c : nat) : list event :=
  [EvRegmapUpdateBits (TCU_REG_TCSRc c) (u32 (TCU_TCSR_PWM_EN P)) 0;
   EvRegmapWrite TCU_REG_TECR (u32 (BIT (plat_arch P) c))].

Definition enable_events (P : platform) (c : nat) : list event :=
  [EvRegmapUpdateBits (TCU_REG_TCSRc c) (u32 (TCU_TCSR_PWM_EN P)) (u32 (TCU_TCSR_PWM_EN P));
   EvRegmapWrite TCU_REG_TESR (u32 (BIT (plat_arch P) c))].

Definition program_events (P : platform) (c : nat) (duty period : Z) : list event :=
  [EvRegmapUpdateBits (TCU_REG_TCSRc c) (u32 (TCU_TCSR_PWM_SD P)) (u32 (TCU_TCSR_PWM_SD P));
   EvRegmapWrite (TCU_REG_TCNTc c) 0;
   EvRegmapWrite (TCU_REG_TDHRc c) (u32 duty);
   EvRegmapWrite (TCU_REG_TDFRc c) (u32 period)].

Definition reprogram_events (P : platform) (c : nat) (en : bool) (duty period : Z)
  : list event :=
  (if en then disable_events P c else []) ++
  program_events P c duty period ++
  (if en then enable_events P c else []).

(** The calls of a successful [jz4740_pwm_config]: the rate is read, the
    rounding is queried at [qs], [rate] is set, the running status is read
    and the channel is reprogrammed. *)
Definition config_events (P : platform) (k : option clk) (c : nat) (qs : list Z)
  (rate : Z) (en : bool) (duty period : Z) : list event :=
  EvClkGetRate k :: map (EvClkRoundRate k) qs ++
  EvClkSetRate k rate :: EvRegmapRead TCU_REG_TER ::
  reprogram_events P c en duty period.

(** Whether channel [c] runs, as the running-status register tells. *)
Definition channel_running (a : arch) (regs : tcu_reg -> Z) (c : nat) : bool :=
  negb (Z.land (u32 (regs TCU_REG_TER)) (BIT a c) =? 0).

(** The register writes of a log: what reaches the hardware, in order. *)
Definition is_reg_store (e : event) : bool :=
  match e with
  | EvRegmapWrite _ _ | EvRegmapUpdateBits _ _ _ => true
  | _ => false
  end.

Definition reg_stores (evs : list event) : list event := filter is_reg_store evs.

(** The values a log stores into register [r] with [regmap_write]. *)
Definition written_to (r : tcu_reg) (evs : list event) : list Z :=
  flat_map (fun e => match e with
                     | EvRegmapWrite r' v => if tcu_reg_eq_dec r' r then [v] else []
                     | _ => []
                     end) evs.

(** Two more platforms, for the error paths of [jz4740_pwm_request]: one
    without any timer clock (ENOENT), one whose clocks fail to power up
    (EIO). *)
Definition unclocked_platform : platform :=
  {| plat_arch := ILP32;
     TCU_TCSR_PWM_EN := 128;
     TCU_TCSR_PWM_SD := 512;
     TCU_TCSR_PWM_INITL_HIGH := 256;
     clk_lookup := fun _ => ERR_PTR 2;
     clk_enable_status := fun _ => 0;
     clk_rounding := fun _ => tcu_round_rate |}.

Definition unpowered_platform : platform :=
  {| plat_arch := ILP32;
     TCU_TCSR_PWM_EN := 128;
     TCU_TCSR_PWM_SD := 512;
     TCU_TCSR_PWM_INITL_HIGH := 256;
     clk_lookup := timer_clk_lookup;
     clk_enable_status := fun _ => -5;
     clk_rounding := fun _ => tcu_round_rate |}.

(** The resources a consumer can be left holding. *)
Definition same_resources (w w' : world) : Prop :=
  (forall c, tcu_leased w' c = tcu_leased w c) /\
  (forall k, clk_refs w' k = clk_refs w k) /\
  (forall k, clk_enabled w' k = clk_enabled w k) /\
  (forall c, jz_clks w' c = jz_clks w c).

(* ===================================================================== *)
(** ** Integer conversions                                                *)
(* ===================================================================== *)

Lemma pow2_long_pos (a : arch) : 0 < 2 ^ BITS_PER_LONG a.
Proof. destruct a; reflexivity. Qed.

Lemma to_ulong_range (a : arch) (x : Z) : 0 <= to_ulong a x < 2 ^ BITS_PER_LONG a.
Proof. apply Z.mod_pos_bound, pow2_long_pos. Qed.

Lemma to_ulong_small (a : arch) (x : Z) : 0 <= x < 2 ^ 32 -> to_ulong a x = x.
Proof.
  intros H. apply Z.mod_small.
  assert (2 ^ 32 <= 2 ^ BITS_PER_LONG a) by (destruct a; vm_compute; discriminate).
  lia.
Qed.

Lemma u32_range (x : Z) : 0 <= u32 x < 2 ^ 32.
Proof. apply Z.mod_pos_bound. reflexivity. Qed.

Lemma u64_range (x : Z) : 0 <= u64 x < 2 ^ 64.
Proof. apply Z.mod_pos_bound. reflexivity. Qed.

Lemma u32_small (x : Z) : 0 <= x < 2 ^ 32 -> u32 x = x.
Proof. apply Z.mod_small. Qed.

Lemma u64_small (x : Z) : 0 <= x < 2 ^ 64 -> u64 x = x.
Proof. apply Z.mod_small. Qed.

Lemma u32_testbit (x n : Z) : 0 <= n < 32 -> Z.testbit (u32 x) n = Z.testbit x n.
Proof. intros H. unfold u32. apply Z.mod_pow2_bits_low. lia. Qed.

Lemma BIT_channel (a : arch) (c : nat) :
  (c < NUM_PWM)%nat -> BIT a c = 2 ^ Z.of_nat c.
Proof.
  intros H. unfold BIT. rewrite Z.shiftl_1_l. apply to_ulong_small.
  unfold NUM_PWM in H. split; [apply Z.pow_nonneg; lia |].
  apply Z.pow_lt_mono_r; lia.
Qed.

Lemma ticks_at_nonneg (rate period_ns : Z) : 0 <= ticks_at rate period_ns.
Proof.
  unfold ticks_at. apply Z.div_pos; [| reflexivity].
  apply u64_range.
Qed.

(* ===================================================================== *)
(** ** Worlds after a sequence of calls                                   *)
(* ===================================================================== *)

Lemma effects_app (P : platform) (a b : list event) (w : world) :
  effects P (a ++ b) w = effects P b (effects P a w).
Proof. apply fold_left_app. Qed.

Lemma effects_cons (P : platform) (e : event) (evs : list event) (w : world) :
  effects P (e :: evs) w = effects P evs (effect P e w).
Proof. reflexivity. Qed.

Lemma log_effects (P : platform) (evs : list event) :
  forall w, log (effects P evs w) = log w ++ evs.
Proof.
  induction evs as [| e evs IH]; intros w; simpl.
  - now rewrite app_nil_r.
  - rewrite IH. simpl. now rewrite <- app_assoc.
Qed.

Lemma jz_clks_effects (P : platform) (evs : list event) :
  forall w, jz_clks (effects P evs w) = jz_clks w.
Proof.
  induction evs as [| e evs IH]; intros w; simpl; [reflexivity |].
  now rewrite IH.
Qed.

(** The register file only moves on register stores. *)
Lemma tcu_regs_effects (P : platform) (evs : list event) :
  forall w,
    tcu_regs (effects P evs w) =
    fold_left (fun regs e => regmap_effect e regs) evs (tcu_regs w).
Proof.
  induction evs as [| e evs IH]; intros w; simpl; [reflexivity |].
  now rewrite IH.
Qed.

Lemma tcu_regs_no_store (P : platform) (evs : list event) (w : world) :
  reg_stores evs = [] -> tcu_regs (effects P evs w) = tcu_regs w.
Proof.
  rewrite tcu_regs_effects. generalize (tcu_regs w).
  induction evs as [| e evs IH]; intros regs H; simpl; [reflexivity |].
  unfold reg_stores in H. simpl in H.
  destruct e; simpl in H; try discriminate; simpl; apply IH; exact H.
Qed.

Lemma reg_stores_app (a b : list event) :
  reg_stores (a ++ b) = reg_stores a ++ reg_stores b.
Proof. apply filter_app. Qed.

Lemma reg_stores_round_rate (k : option clk) (qs : list Z) :
  reg_stores (map (EvClkRoundRate k) qs) = [].
Proof. induction qs; simpl; auto. Qed.

Lemma written_to_app (r : tcu_reg) (a b : list event) :
  written_to r (a ++ b) = written_to r a ++ written_to r b.
Proof. apply flat_map_app. Qed.

Lemma written_to_round_rate (r : tcu_reg) (k : option clk) (qs : list Z) :
  written_to r (map (EvClkRoundRate k) qs) = [].
Proof. induction qs; simpl; auto. Qed.

(* ===================================================================== *)
(** ** Running the driver                                                 *)
(* ===================================================================== *)

Lemma do_div_nsec (n : Z) (w : world) :
  do_div n 1000000000 w = Done (n / 1000000000) w.
Proof. reflexivity. Qed.

Lemma do_div_run (n base : Z) (w : world) :
  do_div n base w = if u32 base =? 0 then DivideError else Done (n / u32 base) w.
Proof. reflexivity. Qed.

#[local] Arguments effect : simpl never.
#[local] Arguments effects : simpl never.
#[local] Arguments clk_name : simpl never.

(** Symbolic execution of straight-line driver code. *)
Ltac drv_unfold :=
  unfold regmap_read, regmap_write, regmap_update_bits,
    ingenic_tcu_request_channel, ingenic_tcu_release_channel,
    clk_get, clk_put, clk_prepare_enable, clk_disable_unprepare,
    clk_get_rate, clk_round_rate, clk_set_rate,
    perform, when, modify, get_world, bind, ret.

Ltac drv_run := drv_unfold; cbn beta iota.

Section Facts.

Variable P : platform.

Lemma enable_run (pwm : pwm_device) (w : world) :
  jz4740_pwm_enable P pwm w = Done 0 (effects P (enable_events P (hwpwm pwm)) w).
Proof. reflexivity. Qed.

Lemma disable_run (pwm : pwm_device) (w : world) :
  jz4740_pwm_disable P pwm w = Done tt (effects P (disable_events P (hwpwm pwm)) w).
Proof. reflexivity. Qed.

(** The loop of [jz4740_pwm_config] always leaves, it only queries the
    clock's rounding, and it is the spec's RateSolver over that
    rounding. *)
Lemma rate_search_refines (k : option clk) (period_ns : Z) :
  forall (rate : Z) (w : world),
  exists qs x,
    RateSolver (rounded P k) period_ns rate qs x /\
    rate_search P k period_ns rate w =
      Done x (effects P (map (EvClkRoundRate k) qs) w).
Proof.
  intros rate.
  induction rate as [rate IH] using (well_founded_induction ulong_lt_wf).
  intros w. rewrite rate_search_equation_1.
  unfold bind at 1. rewrite do_div_nsec. fold (ticks_at rate period_ns).
  destruct (ticks_at rate period_ns <=? 65535) eqn:Hfit.
  - exists [], (Break rate (ticks_at rate period_ns)). split.
    + constructor. lia.
    + reflexivity.
  - apply Z.leb_gt in Hfit. drv_run.
    fold (rounded P k (rate / 2)).
    destruct (Z_lt_dec (rounded P k (rate / 2)) rate) as [Hlt | Hge].
    + destruct (IH (rounded P k (rate / 2))) with (w := effect P (EvClkRoundRate k (rate / 2)) w)
        as (qs & x & Hrun & Heq).
      { split; [apply to_ulong_range | exact Hlt]. }
      exists (rate / 2 :: qs), x. split.
      * now apply RS_retry.
      * rewrite Heq. reflexivity.
    + exists [rate / 2], (Return (- EINVAL)). split.
      * now apply RS_fail.
      * reflexivity.
Qed.

(** Every run of [jz4740_pwm_config]: the search, then either the error
    return, the trap of the second division, or the reprogramming. *)
Lemma config_run (pwm : pwm_device) (duty_ns period_ns : Z) (w : world) :
  let c := hwpwm pwm in
  let k := jz_clks w c in
  exists qs x,
    RateSolver (rounded P k) period_ns (initial_rate (plat_arch P) w k) qs x /\
    jz4740_pwm_config P pwm duty_ns period_ns w =
    match x with
    | Return r =>
        Done r (effects P (EvClkGetRate k :: map (EvClkRoundRate k) qs) w)
    | Break rate tmp =>
        if u32 period_ns =? 0 then DivideError
        else
          let period := period_ticks (plat_arch P) tmp in
          let duty := duty_ticks (plat_arch P) period duty_ns period_ns in
          let en := channel_running (plat_arch P) (tcu_regs w) c in
          Done 0 (effects P
                    (EvClkGetRate k :: map (EvClkRoundRate k) qs ++
                     EvClkSetRate k rate :: EvRegmapRead TCU_REG_TER ::
                     reprogram_events P c en duty period) w)
    end.
Proof.
  intros c k.
  destruct (rate_search_refines k period_ns (initial_rate (plat_arch P) w k)
              (effect P (EvClkGetRate k) w)) as (qs & x & Hrun & Heq).
  exists qs, x. split; [exact Hrun |].
  unfold jz4740_pwm_config.
  unfold bind at 1, get_world at 1. unfold bind at 1, clk_get_rate at 1.
  drv_run. fold c. fold k. fold (initial_rate (plat_arch P) w k). rewrite Heq. clear Heq.
  destruct x as [rate tmp | r]; [| reflexivity].
  rewrite do_div_run. destruct (u32 period_ns =? 0) eqn:Hz; [reflexivity |].
  set (w1 := effect P (EvClkSetRate k rate) _).
  assert (Hw1 : w1 = effects P (EvClkGetRate k :: map (EvClkRoundRate k) qs ++
                                [EvClkSetRate k rate]) w).
  { rewrite effects_cons, effects_app. reflexivity. }
  assert (Hregs : tcu_regs w1 = tcu_regs w).
  { rewrite Hw1. apply tcu_regs_no_store.
    change (EvClkGetRate k :: map (EvClkRoundRate k) qs ++ [EvClkSetRate k rate])
      with ([EvClkGetRate k] ++ map (EvClkRoundRate k) qs ++ [EvClkSetRate k rate]).
    rewrite !reg_stores_app, reg_stores_round_rate. reflexivity. }
  rewrite Hregs. fold (channel_running (plat_arch P) (tcu_regs w) c).
  cbv zeta. fold (period_ticks (plat_arch P) tmp).
  fold (duty_ticks (plat_arch P) (period_ticks (plat_arch P) tmp) duty_ns period_ns).
  rewrite effects_cons, effects_app, 2 effects_cons.
  rewrite Hw1, effects_cons, effects_app. unfold reprogram_events.
  destruct (channel_running (plat_arch P) (tcu_regs w) c).
  - rewrite disable_run, effects_app, effects_app. rewrite enable_run. reflexivity.
  - reflexivity.
Qed.

(* ===================================================================== *)
(** ** The rate search                                                    *)
(* ===================================================================== *)

Lemma RateSolver_break (round : Z -> Z) (period_ns rate0 : Z) (qs : list Z)
  (rate tmp : Z) :
  RateSolver round period_ns rate0 qs (Break rate tmp) ->
  tmp = ticks_at rate period_ns /\ 0 <= tmp <= 65535.
Proof.
  intros H. remember (Break rate tmp) as x eqn:Hx.
  induction H as [r Hfit | r qs x Hbig Hlt Hrun IH | r Hbig Hge].
  - injection Hx as <- <-. pose proof (ticks_at_nonneg r period_ns). lia.
  - exact (IH Hx).
  - discriminate.
Qed.

Lemma RateSolver_return (round : Z -> Z) (period_ns rate0 : Z) (qs : list Z) (r : Z) :
  RateSolver round period_ns rate0 qs (Return r) -> r = - EINVAL.
Proof.
  intros H. remember (Return r) as x eqn:Hx.
  induction H as [r' Hfit | r' qs x Hbig Hlt Hrun IH | r' Hbig Hge].
  - discriminate.
  - exact (IH Hx).
  - injection Hx as <-. reflexivity.
Qed.

(** The spec's search has one run from each rate. *)
Lemma RateSolver_deterministic (round : Z -> Z) (period_ns rate : Z)
  (qs qs' : list Z) (x x' : loop_exit) :
  RateSolver round period_ns rate qs x ->
  RateSolver round period_ns rate qs' x' ->
  qs = qs' /\ x = x'.
Proof.
  intros H. revert qs' x'.
  induction H as [r Hfit | r qs x Hbig Hlt Hrun IH | r Hbig Hge];
    intros qs' x' H'; inversion H' as [r' Hfit' | r' qs0 x0 Hbig' Hlt' Hrun' | r' Hbig' Hge'];
    subst; try lia; auto.
  destruct (IH _ _ Hrun') as [-> ->]. auto.
Qed.

Lemma period_ticks_small (a : arch) (tmp : Z) :
  0 <= tmp <= 65535 -> period_ticks a tmp = tmp.
Proof. intros H. apply to_ulong_small. lia. Qed.

Lemma u32_int_nonzero (x : Z) : INT_MIN <= x <= INT_MAX -> x <> 0 -> u32 x <> 0.
Proof.
  unfold INT_MIN, INT_MAX, u32. intros H Hx Hm.
  apply Z.mod_divide in Hm; [| discriminate].
  destruct Hm as [q Hq]. lia.
Qed.

Lemma tcu_reg_eq_dec_refl (r : tcu_reg) (T : Type) (x y : T) :
  (if tcu_reg_eq_dec r r then x else y) = x.
Proof. destruct (tcu_reg_eq_dec r r); congruence. Qed.

Lemma reg_stores_reprogram (c : nat) (en : bool) (duty period : Z) :
  reg_stores (reprogram_events P c en duty period) =
  reprogram_events P c en duty period.
Proof. destruct en; reflexivity. Qed.

Lemma written_period_reprogram (c : nat) (en : bool) (duty period : Z) :
  written_to (TCU_REG_TDFRc c) (reprogram_events P c en duty period) = [u32 period].
Proof.
  destruct en; cbn; rewrite tcu_reg_eq_dec_refl; reflexivity.
Qed.

Lemma written_duty_reprogram (c : nat) (en : bool) (duty period : Z) :
  written_to (TCU_REG_TDHRc c) (reprogram_events P c en duty period) = [u32 duty].
Proof.
  destruct en; cbn; rewrite tcu_reg_eq_dec_refl; reflexivity.
Qed.

(** C2: for a period above zero, [jz4740_pwm_config] returns, and either
    it fails with [-EINVAL] without a single register store, or it
    succeeds and the one value it stores in the period register is at most
    [0xFFFF]. *)
Theorem config_period_in_range (pwm : pwm_device) (duty_ns period_ns : Z) (w : world) :
  0 < period_ns <= INT_MAX ->
  exists r evs,
    jz4740_pwm_config P pwm duty_ns period_ns w = Done r (effects P evs w) /\
    ((r = - EINVAL /\ reg_stores evs = []) \/
     (r = 0 /\ exists period,
        0 <= period <= 65535 /\
        written_to (TCU_REG_TDFRc (hwpwm pwm)) evs = [period])).
Proof.
  intros Hp.
  destruct (config_run pwm duty_ns period_ns w) as (qs & x & Hrun & Heq).
  rewrite Heq. clear Heq. destruct x as [rate tmp | r].
  - apply RateSolver_break in Hrun. destruct Hrun as [_ Htmp].
    destruct (u32 period_ns =? 0) eqn:Hz.
    { apply Z.eqb_eq in Hz. exfalso. revert Hz. apply u32_int_nonzero.
      - unfold INT_MIN. lia.
      - lia. }
    eexists 0, _. split; [reflexivity |]. right. split; [reflexivity |].
    exists tmp. split; [exact Htmp |].
    rewrite period_ticks_small by exact Htmp.
    change (EvClkGetRate ?k :: ?l ++ ?a :: ?b :: ?t) with ([EvClkGetRate k] ++ l ++ [a; b] ++ t).
    rewrite !written_to_app, written_to_round_rate, written_period_reprogram.
    cbn. rewrite u32_small; [reflexivity |]. lia.
  - apply RateSolver_return in Hrun. subst r.
    eexists _, _. split; [reflexivity |]. left. split; [reflexivity |].
    change (EvClkGetRate ?k :: ?l) with ([EvClkGetRate k] ++ l).
    rewrite reg_stores_app, reg_stores_round_rate. reflexivity.
Qed.

(** C4: the loop of [jz4740_pwm_config] runs the spec's RateSolver from the
    clock's rate: each query of the rounding at half the current rate is
    logged in order; when the search fails the function returns [-EINVAL];
    when it accepts a rate, that rate is set on the clock right after the
    last query and before any register access. *)
Theorem config_rate_search (pwm : pwm_device) (duty_ns period_ns : Z) (w : world) :
  0 < period_ns <= INT_MAX ->
  let k := jz_clks w (hwpwm pwm) in
  exists qs x,
    RateSolver (rounded P k) period_ns (initial_rate (plat_arch P) w k) qs x /\
    match x with
    | Return r =>
        r = - EINVAL /\
        jz4740_pwm_config P pwm duty_ns period_ns w =
          Done (- EINVAL) (effects P (EvClkGetRate k :: map (EvClkRoundRate k) qs) w)
    | Break rate tmp =>
        exists evs,
          jz4740_pwm_config P pwm duty_ns period_ns w =
            Done 0 (effects P (EvClkGetRate k :: map (EvClkRoundRate k) qs ++
                               EvClkSetRate k rate :: evs) w) /\
          (forall k' r', ~ In (EvClkSetRate k' r') evs) /\
          (forall k' r', ~ In (EvClkRoundRate k' r') evs)
    end.
Proof.
  intros Hp k.
  destruct (config_run pwm duty_ns period_ns w) as (qs & x & Hrun & Heq).
  exists qs, x. split; [exact Hrun |].
  destruct x as [rate tmp | r].
  - destruct (u32 period_ns =? 0) eqn:Hz.
    { apply Z.eqb_eq in Hz. exfalso. revert Hz. apply u32_int_nonzero.
      - unfold INT_MIN. lia.
      - lia. }
    eexists. split; [exact Heq |].
    split; intros k' r' Hin; cbv zeta in Hin;
      destruct (channel_running _ _ _); cbn in Hin;
      repeat (destruct Hin as [Hin | Hin]; [discriminate |]); exact Hin.
  - pose proof (RateSolver_return _ _ _ _ _ Hrun) as ->.
    split; [reflexivity | exact Heq].
Qed.

(** C10: [jz4740_pwm_config] traps on a division by zero exactly when
    [period_ns] is zero: the division by 1,000,000,000 never traps, the
    division by [period_ns] is reached unguarded. *)
Theorem config_divide_error (pwm : pwm_device) (duty_ns period_ns : Z) (w : world) :
  INT_MIN <= period_ns <= INT_MAX ->
  (forall n w0, do_div n 1000000000 w0 <> DivideError) /\
  (jz4740_pwm_config P pwm duty_ns period_ns w = DivideError <-> period_ns = 0).
Proof.
  intros Hp. split.
  { intros n w0. rewrite do_div_nsec. discriminate. }
  destruct (config_run pwm duty_ns period_ns w) as (qs & x & Hrun & Heq).
  rewrite Heq. clear Heq. split.
  - intros Htrap. destruct x as [rate tmp | r]; [| discriminate].
    destruct (u32 period_ns =? 0) eqn:Hz; [| discriminate].
    apply Z.eqb_eq in Hz.
    destruct (Z.eq_dec period_ns 0) as [| Hne]; [assumption |].
    exfalso. exact (u32_int_nonzero _ Hp Hne Hz).
  - intros ->. inversion Hrun as [r Hfit | r qs' x' Hbig | r Hbig]; subst.
    + reflexivity.
    + exfalso. revert Hbig. unfold ticks_at, u64. rewrite Z.mul_0_r. cbn. lia.
    + exfalso. revert Hbig. unfold ticks_at, u64. rewrite Z.mul_0_r. cbn. lia.
Qed.

(* ===================================================================== *)
(** ** Period and duty                                                    *)
(* ===================================================================== *)

(** With a period of at least one tick, the clamp keeps the duty below the
    period, whatever the inputs. *)
Lemma duty_ticks_below_period (a : arch) (period duty_ns period_ns : Z) :
  0 < period -> 0 <= duty_ticks a period duty_ns period_ns < period.
Proof.
  intros Hp. unfold duty_ticks. cbv zeta.
  set (duty := to_ulong a _).
  pose proof (to_ulong_range a (u64 (u64 period - u64 (u64 period * u64 duty_ns) / u32 period_ns)))
    as Hd. fold duty in Hd.
  destruct (period <=? duty) eqn:Hc.
  - apply Z.leb_le in Hc.
    assert (E : to_ulong a (period - 1) = period - 1) by (apply Z.mod_small; lia).
    rewrite E. lia.
  - apply Z.leb_gt in Hc. lia.
Qed.

(** On the inputs the PWM core passes on, and a period that fits the
    16-bit counter, the C arithmetic is the spec's integer formula. *)
Lemma duty_ticks_spec (a : arch) (period duty_ns period_ns : Z) :
  0 < period <= 65535 ->
  0 < period_ns <= INT_MAX ->
  0 <= duty_ns <= period_ns ->
  duty_ticks a period duty_ns period_ns = spec_duty_ticks period duty_ns period_ns.
Proof.
  unfold INT_MAX. intros Hp Hn Hd. unfold duty_ticks, spec_duty_ticks. cbv zeta.
  rewrite (u64_small period) by lia.
  rewrite (u64_small duty_ns) by lia.
  rewrite (u32_small period_ns) by lia.
  assert (Hq : 0 <= period * duty_ns / period_ns <= period).
  { split.
    - apply Z.div_pos; nia.
    - apply Z.div_le_upper_bound; nia. }
  rewrite (u64_small (period * duty_ns)) by nia.
  rewrite (u64_small (period - _)) by lia.
  rewrite (to_ulong_small a (period - _)) by lia.
  rewrite (to_ulong_small a (period - 1)) by lia.
  reflexivity.
Qed.

(** C9: from a clock at 48 MHz, a period of 1 ms with a duty of 0.5 ms is
    accepted at once: the rounding is never queried, 48 MHz is set, and
    the duty and period registers receive 24000 and 48000. *)
Theorem config_scenario_48MHz (pwm : pwm_device) (k : clk) (w : world) :
  jz_clks w (hwpwm pwm) = Some k ->
  clk_rate w k = 48000000 ->
  jz4740_pwm_config P pwm 500000 1000000 w =
    Done 0 (effects P
              (EvClkGetRate (Some k) :: EvClkSetRate (Some k) 48000000 ::
               EvRegmapRead TCU_REG_TER ::
               reprogram_events P (hwpwm pwm)
                 (channel_running (plat_arch P) (tcu_regs w) (hwpwm pwm))
                 24000 48000) w).
Proof.
  intros Hk Hrate.
  destruct (config_run pwm 500000 1000000 w) as (qs & x & Hrun & Heq).
  rewrite Heq. clear Heq. rewrite Hk in *. unfold initial_rate in Hrun.
  rewrite Hrate, to_ulong_small in Hrun by (vm_compute; split; congruence).
  assert (Hticks : ticks_at 48000000 1000000 = 48000) by reflexivity.
  inversion Hrun as [r Hfit | r qs' x' Hbig | r Hbig]; subst;
    try (rewrite Hticks in Hbig; discriminate Hbig).
  rewrite Hticks. change (u32 1000000 =? 0) with false. cbv iota zeta.
  replace (period_ticks (plat_arch P) 48000) with 48000
    by (destruct (plat_arch P); reflexivity).
  replace (duty_ticks (plat_arch P) 48000 500000 1000000) with 24000
    by (destruct (plat_arch P); reflexivity).
  reflexivity.
Qed.

(* ===================================================================== *)
(** ** Call order                                                          *)
(* ===================================================================== *)

(** C7: [jz4740_pwm_enable] first sets the output-enable bits of the
    channel's control register, then writes the channel's bit to the
    counter-start register; [jz4740_pwm_disable] first clears the
    output-enable bits, then writes the channel's bit to the counter-stop
    register. *)
Theorem enable_disable_order (pwm : pwm_device) (w : world) :
  (hwpwm pwm < NUM_PWM)%nat ->
  (exists w',
     jz4740_pwm_enable P pwm w = Done 0 w' /\
     log w' = log w ++
       [EvRegmapUpdateBits (TCU_REG_TCSRc (hwpwm pwm))
          (u32 (TCU_TCSR_PWM_EN P)) (u32 (TCU_TCSR_PWM_EN P));
        EvRegmapWrite TCU_REG_TESR (2 ^ Z.of_nat (hwpwm pwm))]) /\
  (exists w',
     jz4740_pwm_disable P pwm w = Done tt w' /\
     log w' = log w ++
       [EvRegmapUpdateBits (TCU_REG_TCSRc (hwpwm pwm))
          (u32 (TCU_TCSR_PWM_EN P)) 0;
        EvRegmapWrite TCU_REG_TECR (2 ^ Z.of_nat (hwpwm pwm))]).
Proof.
  intros Hc.
  assert (Hbit : u32 (BIT (plat_arch P) (hwpwm pwm)) = 2 ^ Z.of_nat (hwpwm pwm)).
  { rewrite BIT_channel by exact Hc. apply u32_small.
    unfold NUM_PWM in Hc. split; [apply Z.pow_nonneg; lia |].
    apply Z.pow_lt_mono_r; lia. }
  split.
  - exists (effects P (enable_events P (hwpwm pwm)) w).
    split; [apply enable_run |].
    rewrite log_effects. unfold enable_events. now rewrite Hbit.
  - exists (effects P (disable_events P (hwpwm pwm)) w).
    split; [apply disable_run |].
    rewrite log_effects. unfold disable_events. now rewrite Hbit.
Qed.

(** C6: a successful [jz4740_pwm_config] stores to the registers in this
    order: the disable sequence if the channel was running; then the
    abrupt-shutdown bits, zero to the counter, the duty, the period; then
    the enable sequence if the channel was running. *)
Theorem config_store_order (pwm : pwm_device) (duty_ns period_ns : Z) (w w' : world) :
  jz4740_pwm_config P pwm duty_ns period_ns w = Done 0 w' ->
  exists evs duty period,
    log w' = log w ++ evs /\
    reg_stores evs =
      (if channel_running (plat_arch P) (tcu_regs w) (hwpwm pwm)
       then disable_events P (hwpwm pwm) else []) ++
      [EvRegmapUpdateBits (TCU_REG_TCSRc (hwpwm pwm))
         (u32 (TCU_TCSR_PWM_SD P)) (u32 (TCU_TCSR_PWM_SD P));
       EvRegmapWrite (TCU_REG_TCNTc (hwpwm pwm)) 0;
       EvRegmapWrite (TCU_REG_TDHRc (hwpwm pwm)) (u32 duty);
       EvRegmapWrite (TCU_REG_TDFRc (hwpwm pwm)) (u32 period)] ++
      (if channel_running (plat_arch P) (tcu_regs w) (hwpwm pwm)
       then enable_events P (hwpwm pwm) else []) /\
    duty = duty_ticks (plat_arch P) period duty_ns period_ns.
Proof.
  intros Hrun.
  destruct (config_run pwm duty_ns period_ns w) as (qs & x & Hsolve & Heq).
  rewrite Heq in Hrun. clear Heq. destruct x as [rate tmp | r].
  - destruct (u32 period_ns =? 0); [discriminate |].
    cbv zeta in Hrun. injection Hrun as <-.
    eexists _, _, _. split; [apply log_effects |]. split; [| reflexivity].
    change (EvClkGetRate ?k :: ?l ++ ?a :: ?b :: ?t) with ([EvClkGetRate k] ++ l ++ [a; b] ++ t).
    rewrite !reg_stores_app, reg_stores_round_rate, reg_stores_reprogram.
    reflexivity.
  - apply RateSolver_return in Hsolve. subst r. discriminate.
Qed.

(* ===================================================================== *)
(** ** Register contents                                                  *)
(* ===================================================================== *)

Lemma land_u32_lor_bit (x c : Z) :
  0 <= c < 32 -> Z.land (u32 (Z.lor x (2 ^ c))) (2 ^ c) = 2 ^ c.
Proof.
  intros Hc. apply Z.bits_inj'. intros n Hn.
  rewrite Z.land_spec, Z.pow2_bits_eqb by lia.
  destruct (c =? n) eqn:E.
  - apply Z.eqb_eq in E. subst n.
    rewrite u32_testbit, Z.lor_spec, Z.pow2_bits_eqb, Z.eqb_refl by lia.
    now rewrite orb_true_r.
  - apply andb_false_r.
Qed.

(** The running-status register after the stores of a reprogramming. *)
Lemma ter_after_reprogram (c : nat) (en : bool) (duty period : Z) (regs : tcu_reg -> Z) :
  fold_left (fun regs e => regmap_effect e regs)
    (reprogram_events P c en duty period) regs TCU_REG_TER =
  if en
  then Z.lor (Z.land (regs TCU_REG_TER) (Z.lnot (u32 (BIT (plat_arch P) c))))
             (u32 (BIT (plat_arch P) c))
  else regs TCU_REG_TER.
Proof. destruct en; reflexivity. Qed.

(** C3: [jz4740_pwm_config] decides whether the channel runs from the
    running-status register, read before any store, and returns with the
    channel running exactly if it ran at the call. *)
Theorem config_keeps_running (pwm : pwm_device) (duty_ns period_ns : Z)
  (w w' : world) (r : Z) :
  (hwpwm pwm < NUM_PWM)%nat ->
  jz4740_pwm_config P pwm duty_ns period_ns w = Done r w' ->
  channel_running (plat_arch P) (tcu_regs w') (hwpwm pwm) =
    channel_running (plat_arch P) (tcu_regs w) (hwpwm pwm) /\
  (r = 0 ->
   exists pre post,
     log w' = log w ++ pre ++ EvRegmapRead TCU_REG_TER :: post /\
     reg_stores pre = []).
Proof.
  intros Hc Hrun.
  destruct (config_run pwm duty_ns period_ns w) as (qs & x & Hsolve & Heq).
  rewrite Heq in Hrun. clear Heq. destruct x as [rate tmp | r0].
  - destruct (u32 period_ns =? 0); [discriminate |].
    cbv zeta in Hrun. injection Hrun as <- <-. split.
    + unfold channel_running at 1.
      change (EvClkGetRate ?k :: ?l ++ ?a :: ?b :: ?t) with ([EvClkGetRate k] ++ l ++ [a; b] ++ t).
      rewrite !effects_app, tcu_regs_effects, ter_after_reprogram.
      rewrite !tcu_regs_no_store
        by first [apply reg_stores_round_rate | reflexivity].
      destruct (channel_running (plat_arch P) (tcu_regs w) (hwpwm pwm)) eqn:Hen;
        [| exact Hen].
      rewrite BIT_channel by exact Hc.
      assert (Hpow : 0 < 2 ^ Z.of_nat (hwpwm pwm) < 2 ^ 32).
      { unfold NUM_PWM in Hc. split; [apply Z.pow_pos_nonneg; lia |].
        apply Z.pow_lt_mono_r; lia. }
      rewrite (u32_small (2 ^ _)) by lia.
      rewrite land_u32_lor_bit by (unfold NUM_PWM in Hc; lia).
      destruct (2 ^ Z.of_nat (hwpwm pwm) =? 0) eqn:Hz; [| reflexivity].
      apply Z.eqb_eq in Hz. lia.
    + intros _.
      exists (EvClkGetRate (jz_clks w (hwpwm pwm)) ::
              map (EvClkRoundRate (jz_clks w (hwpwm pwm))) qs ++
              [EvClkSetRate (jz_clks w (hwpwm pwm)) rate]).
      eexists. split.
      * rewrite log_effects. f_equal. cbn [app]. f_equal.
        rewrite <- app_assoc. reflexivity.
      * change (EvClkGetRate ?k :: ?l ++ [?a]) with ([EvClkGetRate k] ++ l ++ [a]).
        rewrite !reg_stores_app, reg_stores_round_rate. reflexivity.
  - injection Hrun as <- <-. split.
    + rewrite tcu_regs_no_store; [reflexivity |].
      change (EvClkGetRate ?k :: ?l) with ([EvClkGetRate k] ++ l).
      rewrite reg_stores_app, reg_stores_round_rate. reflexivity.
    + intros ->. apply RateSolver_return in Hsolve. discriminate.
Qed.

(** The mask and value that [jz4740_pwm_set_polarity] updates with. *)
Lemma set_polarity_run (pwm : pwm_device) (polarity : pwm_polarity) (w : world) :
  jz4740_pwm_set_polarity P pwm polarity w =
  Done 0 (effect P
            (EvRegmapUpdateBits (TCU_REG_TCSRc (hwpwm pwm))
               (u32 (TCU_TCSR_PWM_INITL_HIGH P))
               (match polarity with
                | PWM_POLARITY_NORMAL => 0
                | PWM_POLARITY_INVERSED => u32 (TCU_TCSR_PWM_INITL_HIGH P)
                end)) w).
Proof. destruct polarity; reflexivity. Qed.

(** C8: [jz4740_pwm_set_polarity] returns 0; in the channel's control
    register, the bits of the initial-level-high mask are cleared for the
    normal polarity and set for the inversed one, and every other bit is
    kept; every other register is kept. *)
Theorem set_polarity_frame (pwm : pwm_device) (polarity : pwm_polarity) (w : world) :
  exists w',
    jz4740_pwm_set_polarity P pwm polarity w = Done 0 w' /\
    (forall r, r <> TCU_REG_TCSRc (hwpwm pwm) -> tcu_regs w' r = tcu_regs w r) /\
    (forall n, 0 <= n < 32 ->
       Z.testbit (tcu_regs w' (TCU_REG_TCSRc (hwpwm pwm))) n =
       if Z.testbit (TCU_TCSR_PWM_INITL_HIGH P) n
       then match polarity with
            | PWM_POLARITY_NORMAL => false
            | PWM_POLARITY_INVERSED => true
            end
       else Z.testbit (tcu_regs w (TCU_REG_TCSRc (hwpwm pwm))) n) /\
    log w' = log w ++
      [EvRegmapUpdateBits (TCU_REG_TCSRc (hwpwm pwm))
         (u32 (TCU_TCSR_PWM_INITL_HIGH P))
         (match polarity with
          | PWM_POLARITY_NORMAL => 0
          | PWM_POLARITY_INVERSED => u32 (TCU_TCSR_PWM_INITL_HIGH P)
          end)].
Proof.
  eexists. split; [apply set_polarity_run |]. split; [| split].
  - intros r Hr. unfold effect, regmap_effect, tcu_store, upd. cbn [tcu_regs].
    destruct (tcu_reg_eq_dec r (TCU_REG_TCSRc (hwpwm pwm))); [contradiction | reflexivity].
  - intros n Hn. unfold effect, regmap_effect, tcu_store, upd. cbn [tcu_regs].
    rewrite tcu_reg_eq_dec_refl.
    rewrite u32_testbit by exact Hn.
    rewrite Z.lor_spec, !Z.land_spec, Z.lnot_spec by lia.
    destruct polarity.
    + rewrite Z.testbit_0_l. rewrite (u32_testbit _ n Hn).
      destruct (Z.testbit (TCU_TCSR_PWM_INITL_HIGH P) n);
        destruct (Z.testbit _ n); reflexivity.
    + rewrite (u32_testbit _ n Hn).
      destruct (Z.testbit (TCU_TCSR_PWM_INITL_HIGH P) n);
        destruct (Z.testbit _ n); reflexivity.
  - reflexivity.
Qed.

(* ===================================================================== *)
(** ** Resources                                                          *)
(* ===================================================================== *)

Lemma upd_same {K V : Type} (dec : forall x y : K, {x = y} + {x <> y})
  (f : K -> V) (k : K) (v : V) : upd dec f k v k = v.
Proof. unfold upd. destruct (dec k k); congruence. Qed.

Lemma upd_twice {K V : Type} (dec : forall x y : K, {x = y} + {x <> y})
  (f : K -> V) (k : K) (v v' : V) (x : K) :
  upd dec (upd dec f k v) k v' x = upd dec f k v' x.
Proof. unfold upd. destruct (dec x k); reflexivity. Qed.

Lemma upd_restore {K V : Type} (dec : forall x y : K, {x = y} + {x <> y})
  (f : K -> V) (k : K) (x : K) : upd dec f k (f k) x = f x.
Proof. unfold upd. destruct (dec x k); congruence. Qed.

(** [jz4740_pwm_request] always returns. *)
Lemma request_returns (pwm : pwm_device) (w : world) :
  exists r w', jz4740_pwm_request P pwm w = Done r w'.
Proof.
  unfold jz4740_pwm_request. drv_run.
  destruct (tcu_leased w (hwpwm pwm)); cbn; [eauto |].
  destruct (clk_lookup P (clk_name (hwpwm pwm))); cbn; [| eauto].
  destruct (clk_enable_status P k =? 0); cbn; eauto.
Qed.

(** C5: when [jz4740_pwm_request] returns an error, the lease table, the
    clock references, the clock enable counts and the driver's clock array
    are as before the call.  A busy channel is left alone; after a failed
    [clk_get] the channel is released; after a failed
    [clk_prepare_enable] the clock is put, then the channel is released. *)
Theorem request_unwinds (pwm : pwm_device) (w w' : world) (r : Z) :
  jz4740_pwm_request P pwm w = Done r w' ->
  r <> 0 ->
  same_resources w w' /\
  exists evs,
    log w' = log w ++ evs /\
    match tcu_leased w (hwpwm pwm), clk_lookup P (clk_name (hwpwm pwm)) with
    | true, _ =>
        r = - EBUSY /\ evs = [EvTcuRequestChannel (hwpwm pwm)]
    | false, ERR_PTR e =>
        r = PTR_ERR e /\
        evs = [EvTcuRequestChannel (hwpwm pwm);
               EvClkGet (clk_name (hwpwm pwm));
               EvTcuReleaseChannel (hwpwm pwm)]
    | false, CLK k =>
        r = clk_enable_status P k /\
        evs = [EvTcuRequestChannel (hwpwm pwm);
               EvClkGet (clk_name (hwpwm pwm));
               EvClkPrepareEnable (Some k);
               EvClkPut (Some k);
               EvTcuReleaseChannel (hwpwm pwm)]
    end.
Proof.
  unfold jz4740_pwm_request. drv_run. intros Hrun Hr.
  destruct (tcu_leased w (hwpwm pwm)) eqn:Hl; cbn in Hrun.
  - injection Hrun as <- <-. split.
    + unfold same_resources, effect; cbn. rewrite Hl. auto.
    + exists [EvTcuRequestChannel (hwpwm pwm)].
      destruct (clk_lookup P (clk_name (hwpwm pwm))); auto.
  - destruct (clk_lookup P (clk_name (hwpwm pwm))) as [k | e] eqn:Hk; cbn in Hrun.
    + destruct (clk_enable_status P k =? 0) eqn:Hs; cbn in Hrun.
      * injection Hrun as <- <-. apply Z.eqb_eq in Hs. contradiction.
      * injection Hrun as <- <-. split.
        -- unfold same_resources, effect; cbn. rewrite Hl, Hk, Hs.
           repeat split; intros x; auto.
           ++ rewrite upd_twice. rewrite <- Hl at 1. apply upd_restore.
           ++ rewrite upd_twice, upd_same, Nat.pred_succ. apply upd_restore.
        -- eexists. split; [| split; reflexivity].
           unfold effect; cbn. rewrite <- !app_assoc. reflexivity.
    + injection Hrun as <- <-. split.
      * unfold same_resources, effect; cbn. rewrite Hl, Hk.
        repeat split; intros x; auto.
        rewrite upd_twice. rewrite <- Hl at 1. apply upd_restore.
      * eexists. split; [| split; reflexivity].
        unfold effect; cbn. rewrite <- !app_assoc. reflexivity.
Qed.

(** On success the channel is leased, the clock is held and enabled once
    more, and the driver has recorded it. *)
Lemma request_success (pwm : pwm_device) (w w' : world) :
  jz4740_pwm_request P pwm w = Done 0 w' ->
  exists k,
    clk_lookup P (clk_name (hwpwm pwm)) = CLK k /\
    tcu_leased w (hwpwm pwm) = false /\
    tcu_leased w' (hwpwm pwm) = true /\
    clk_refs w' k = S (clk_refs w k) /\
    clk_enabled w' k = S (clk_enabled w k) /\
    jz_clks w' (hwpwm pwm) = Some k.
Proof.
  unfold jz4740_pwm_request. drv_run. intros Hrun.
  destruct (tcu_leased w (hwpwm pwm)) eqn:Hl; cbn in Hrun; [discriminate |].
  destruct (clk_lookup P (clk_name (hwpwm pwm))) as [k | e] eqn:Hk; cbn in Hrun;
    [| discriminate].
  destruct (clk_enable_status P k =? 0) eqn:Hs; cbn in Hrun.
  - injection Hrun as <-. exists k. unfold effect; cbn. rewrite Hl, Hk, Hs.
    rewrite !upd_same. repeat split.
  - injection Hrun as Hr _. apply Z.eqb_neq in Hs. congruence.
Qed.

(** With no tick in the period the clamp wraps: the duty is the largest
    [unsigned long]. *)
Lemma duty_ticks_zero_period (a : arch) (duty_ns period_ns : Z) :
  duty_ticks a 0 duty_ns period_ns = 2 ^ BITS_PER_LONG a - 1.
Proof. destruct a; reflexivity. Qed.

End Facts.

(* ===================================================================== *)
(** ** Runs on the sample platform                                        *)
(* ===================================================================== *)

(** C1: on a 48 MHz clock a period of 20 ns holds no tick: the call
    succeeds and stores 0xFFFFFFFF in the duty register and 0 in the period
    register, so the duty stored is not below the period stored. *)
Theorem config_short_period_duty_above_period :
  observe (jz4740_pwm_config jz4740_platform pwm0 10 20 idle_world) =
  Some (0,
        [EvClkGetRate (Some 0%nat);
         EvClkSetRate (Some 0%nat) 48000000;
         EvRegmapRead TCU_REG_TER;
         EvRegmapUpdateBits (TCU_REG_TCSRc 0) 512 512;
         EvRegmapWrite (TCU_REG_TCNTc 0) 0;
         EvRegmapWrite (TCU_REG_TDHRc 0) 4294967295;
         EvRegmapWrite (TCU_REG_TDFRc 0) 0]).
Proof. vm_compute. reflexivity. Qed.

Lemma config_period_in_range_witness :
  exists r evs,
    jz4740_pwm_config jz4740_platform pwm0 500000 1000000 idle_world =
      Done r (effects jz4740_platform evs idle_world) /\
    ((r = - EINVAL /\ reg_stores evs = []) \/
     (r = 0 /\ exists period,
        0 <= period <= 65535 /\
        written_to (TCU_REG_TDFRc (hwpwm pwm0)) evs = [period])).
Proof.
  apply (config_period_in_range jz4740_platform pwm0 500000 1000000 idle_world).
  unfold INT_MAX. lia.
Defined.

Lemma config_keeps_running_witness :
  channel_running ILP32
    (tcu_regs (world_after (jz4740_pwm_config jz4740_platform pwm0 500000 1000000
                              running_world) running_world)) 0 =
  channel_running ILP32 (tcu_regs running_world) 0 /\
  (0 = 0 ->
   exists pre post,
     log (world_after (jz4740_pwm_config jz4740_platform pwm0 500000 1000000
                         running_world) running_world) =
       log running_world ++ pre ++ EvRegmapRead TCU_REG_TER :: post /\
     reg_stores pre = []).
Proof.
  apply (config_keeps_running jz4740_platform pwm0 500000 1000000 running_world _ 0).
  - unfold NUM_PWM. simpl. lia.
  - vm_compute. reflexivity.
Defined.

Lemma config_rate_search_witness :
  exists qs x,
    RateSolver (rounded jz4740_platform (jz_clks idle_world (hwpwm pwm0))) 100000000
      (initial_rate ILP32 idle_world (jz_clks idle_world (hwpwm pwm0))) qs x /\
    match x with
    | Return r =>
        r = - EINVAL /\
        jz4740_pwm_config jz4740_platform pwm0 50000000 100000000 idle_world =
          Done (- EINVAL)
            (effects jz4740_platform
               (EvClkGetRate (jz_clks idle_world (hwpwm pwm0)) ::
                map (EvClkRoundRate (jz_clks idle_world (hwpwm pwm0))) qs) idle_world)
    | Break rate tmp =>
        exists evs,
          jz4740_pwm_config jz4740_platform pwm0 50000000 100000000 idle_world =
            Done 0
              (effects jz4740_platform
                 (EvClkGetRate (jz_clks idle_world (hwpwm pwm0)) ::
                  map (EvClkRoundRate (jz_clks idle_world (hwpwm pwm0))) qs ++
                  EvClkSetRate (jz_clks idle_world (hwpwm pwm0)) rate :: evs) idle_world) /\
          (forall k' r', ~ In (EvClkSetRate k' r') evs) /\
          (forall k' r', ~ In (EvClkRoundRate k' r') evs)
    end.
Proof.
  apply (config_rate_search jz4740_platform pwm0 50000000 100000000 idle_world).
  unfold INT_MAX. lia.
Defined.

Lemma request_unwinds_witness :
  same_resources probed_world
    (world_after (jz4740_pwm_request unpowered_platform pwm0 probed_world) probed_world) /\
  exists evs,
    log (world_after (jz4740_pwm_request unpowered_platform pwm0 probed_world)
           probed_world) = log probed_world ++ evs /\
    match tcu_leased probed_world (hwpwm pwm0),
          clk_lookup unpowered_platform (clk_name (hwpwm pwm0)) with
    | true, _ =>
        -5 = - EBUSY /\ evs = [EvTcuRequestChannel (hwpwm pwm0)]
    | false, ERR_PTR e =>
        -5 = PTR_ERR e /\
        evs = [EvTcuRequestChannel (hwpwm pwm0);
               EvClkGet (clk_name (hwpwm pwm0));
               EvTcuReleaseChannel (hwpwm pwm0)]
    | false, CLK k =>
        -5 = clk_enable_status unpowered_platform k /\
        evs = [EvTcuRequestChannel (hwpwm pwm0);
               EvClkGet (clk_name (hwpwm pwm0));
               EvClkPrepareEnable (Some k);
               EvClkPut (Some k);
               EvTcuReleaseChannel (hwpwm pwm0)]
    end.
Proof.
  apply (request_unwinds unpowered_platform pwm0 probed_world _ (-5)).
  - vm_compute. reflexivity.
  - discriminate.
Defined.

Lemma config_store_order_witness :
  exists evs duty period,
    log (world_after (jz4740_pwm_config jz4740_platform pwm0 500000 1000000
                        running_world) running_world) =
      log running_world ++ evs /\
    reg_stores evs =
      (if channel_running (plat_arch jz4740_platform) (tcu_regs running_world) (hwpwm pwm0)
       then disable_events jz4740_platform (hwpwm pwm0) else []) ++
      [EvRegmapUpdateBits (TCU_REG_TCSRc (hwpwm pwm0))
         (u32 (TCU_TCSR_PWM_SD jz4740_platform)) (u32 (TCU_TCSR_PWM_SD jz4740_platform));
       EvRegmapWrite (TCU_REG_TCNTc (hwpwm pwm0)) 0;
       EvRegmapWrite (TCU_REG_TDHRc (hwpwm pwm0)) (u32 duty);
       EvRegmapWrite (TCU_REG_TDFRc (hwpwm pwm0)) (u32 period)] ++
      (if channel_running (plat_arch jz4740_platform) (tcu_regs running_world) (hwpwm pwm0)
       then enable_events jz4740_platform (hwpwm pwm0) else []) /\
    duty = duty_ticks (plat_arch jz4740_platform) period 500000 1000000.
Proof.
  apply (config_store_order jz4740_platform pwm0 500000 1000000 running_world).
  vm_compute. reflexivity.
Defined.

Lemma enable_disable_order_witness :
  (exists w',
     jz4740_pwm_enable jz4740_platform pwm0 idle_world = Done 0 w' /\
     log w' = log idle_world ++
       [EvRegmapUpdateBits (TCU_REG_TCSRc (hwpwm pwm0))
          (u32 (TCU_TCSR_PWM_EN jz4740_platform)) (u32 (TCU_TCSR_PWM_EN jz4740_platform));
        EvRegmapWrite TCU_REG_TESR (2 ^ Z.of_nat (hwpwm pwm0))]) /\
  (exists w',
     jz4740_pwm_disable jz4740_platform pwm0 idle_world = Done tt w' /\
     log w' = log idle_world ++
       [EvRegmapUpdateBits (TCU_REG_TCSRc (hwpwm pwm0))
          (u32 (TCU_TCSR_PWM_EN jz4740_platform)) 0;
        EvRegmapWrite TCU_REG_TECR (2 ^ Z.of_nat (hwpwm pwm0))]).
Proof.
  apply (enable_disable_order jz4740_platform pwm0 idle_world).
  unfold NUM_PWM. simpl. lia.
Defined.

Lemma config_scenario_48MHz_witness :
  jz4740_pwm_config jz4740_platform pwm0 500000 1000000 idle_world =
    Done 0 (effects jz4740_platform
              (EvClkGetRate (Some 0%nat) :: EvClkSetRate (Some 0%nat) 48000000 ::
               EvRegmapRead TCU_REG_TER ::
               reprogram_events jz4740_platform (hwpwm pwm0)
                 (channel_running (plat_arch jz4740_platform) (tcu_regs idle_world)
                    (hwpwm pwm0))
                 24000 48000) idle_world).
Proof.
  apply (config_scenario_48MHz jz4740_platform pwm0 0%nat idle_world).
  - reflexivity.
  - reflexivity.
Defined.

Lemma config_divide_error_witness :
  (forall n w0, do_div n 1000000000 w0 <> DivideError) /\
  (jz4740_pwm_config jz4740_platform pwm0 0 0 idle_world = DivideError <-> 0 = 0).
Proof.
  apply (config_divide_error jz4740_platform pwm0 0 0 idle_world).
  unfold INT_MIN, INT_MAX. lia.
Defined.

(** The search halves through the prescaler's rates: a period of 100 ms on
    the 48 MHz clock is accepted at 187.5 kHz after four queries. *)
Example config_search_187500Hz :
  observe (jz4740_pwm_config jz4740_platform pwm0 50000000 100000000 idle_world) =
  Some (0,
        [EvClkGetRate (Some 0%nat);
         EvClkRoundRate (Some 0%nat) 24000000;
         EvClkRoundRate (Some 0%nat) 6000000;
         EvClkRoundRate (Some 0%nat) 1500000;
         EvClkRoundRate (Some 0%nat) 375000;
         EvClkSetRate (Some 0%nat) 187500;
         EvRegmapRead TCU_REG_TER;
         EvRegmapUpdateBits (TCU_REG_TCSRc 0) 512 512;
         EvRegmapWrite (TCU_REG_TCNTc 0) 0;
         EvRegmapWrite (TCU_REG_TDHRc 0) 9375;
         EvRegmapWrite (TCU_REG_TDFRc 0) 18750]).
Proof. vm_compute. reflexivity. Qed.

(** A period of 2 s cannot be reached: the search stops when the rounding
    no longer yields a lower rate, and no register is touched. *)
Example config_search_out_of_range :
  observe (jz4740_pwm_config jz4740_platform pwm0 10 2000000000 idle_world) =
  Some (- EINVAL,
        [EvClkGetRate (Some 0%nat);
         EvClkRoundRate (Some 0%nat) 24000000;
         EvClkRoundRate (Some 0%nat) 6000000;
         EvClkRoundRate (Some 0%nat) 1500000;
         EvClkRoundRate (Some 0%nat) 375000;
         EvClkRoundRate (Some 0%nat) 93750;
         EvClkRoundRate (Some 0%nat) 23437]).
Proof. vm_compute. reflexivity. Qed.

(** Reconfiguring a running channel stops and restarts it. *)
Example config_running_channel :
  observe (jz4740_pwm_config jz4740_platform pwm0 500000 1000000 running_world) =
  Some (0,
        [EvClkGetRate (Some 0%nat);
         EvClkSetRate (Some 0%nat) 48000000;
         EvRegmapRead TCU_REG_TER;
         EvRegmapUpdateBits (TCU_REG_TCSRc 0) 128 0;
         EvRegmapWrite TCU_REG_TECR 1;
         EvRegmapUpdateBits (TCU_REG_TCSRc 0) 512 512;
         EvRegmapWrite (TCU_REG_TCNTc 0) 0;
         EvRegmapWrite (TCU_REG_TDHRc 0) 24000;
         EvRegmapWrite (TCU_REG_TDFRc 0) 48000;
         EvRegmapUpdateBits (TCU_REG_TCSRc 0) 128 128;
         EvRegmapWrite TCU_REG_TESR 1]).
Proof. vm_compute. reflexivity. Qed.

(** The three error paths and the success path of a request. *)
Example request_busy :
  observe (jz4740_pwm_request jz4740_platform pwm0 idle_world) =
  Some (- EBUSY, [EvTcuRequestChannel 0]).
Proof. vm_compute. reflexivity. Qed.

Example request_no_clock :
  observe (jz4740_pwm_request unclocked_platform pwm0 probed_world) =
  Some (-2, [EvTcuRequestChannel 0; EvClkGet "timer0"; EvTcuReleaseChannel 0]).
Proof. vm_compute. reflexivity. Qed.

Example request_clock_dead :
  observe (jz4740_pwm_request unpowered_platform pwm0 probed_world) =
  Some (-5, [EvTcuRequestChannel 0; EvClkGet "timer0";
             EvClkPrepareEnable (Some 0%nat); EvClkPut (Some 0%nat);
             EvTcuReleaseChannel 0]).
Proof. vm_compute. reflexivity. Qed.

Example request_ok :
  observe (jz4740_pwm_request jz4740_platform pwm0 probed_world) =
  Some (0, [EvTcuRequestChannel 0; EvClkGet "timer0"; EvClkPrepareEnable (Some 0%nat)]).
Proof. vm_compute. reflexivity. Qed.

(** On the sample platform the inversed polarity sets bit 8 alone. *)
Example set_polarity_inversed_bit8 :
  tcu_regs (world_after (jz4740_pwm_set_polarity jz4740_platform pwm0
                           PWM_POLARITY_INVERSED idle_world) idle_world)
    (TCU_REG_TCSRc 0) = 256.
Proof. vm_compute. reflexivity. Qed.

(* ===================================================================== *)
(** ** Further properties of the driver                                   *)
(* ===================================================================== *)

Section Coverage.

Variable P : platform.

(** *** Request and free *)

Lemma free_run (pwm : pwm_device) (w : world) :
  jz4740_pwm_free P pwm w =
  Done tt (effects P [EvClkDisableUnprepare (jz_clks w (hwpwm pwm));
                      EvClkPut (jz_clks w (hwpwm pwm));
                      EvTcuReleaseChannel (hwpwm pwm)] w).
Proof. reflexivity. Qed.

Lemma request_success_world (pwm : pwm_device) (w w1 : world) :
  jz4740_pwm_request P pwm w = Done 0 w1 ->
  exists k,
    clk_lookup P (clk_name (hwpwm pwm)) = CLK k /\
    tcu_leased w (hwpwm pwm) = false /\
    clk_enable_status P k = 0 /\
    w1 = set_jz_clks (hwpwm pwm) (Some k)
           (effects P [EvTcuRequestChannel (hwpwm pwm);
                       EvClkGet (clk_name (hwpwm pwm));
                       EvClkPrepareEnable (Some k)] w).
Proof.
  unfold jz4740_pwm_request. drv_run. intros Hrun.
  destruct (tcu_leased w (hwpwm pwm)) eqn:Hl; cbn in Hrun; [discriminate |].
  destruct (clk_lookup P (clk_name (hwpwm pwm))) as [k | e] eqn:Hk; cbn in Hrun;
    [| discriminate].
  destruct (clk_enable_status P k =? 0) eqn:Hs; cbn in Hrun.
  - injection Hrun as <-. exists k. apply Z.eqb_eq in Hs. auto.
  - injection Hrun as Hr _. apply Z.eqb_neq in Hs. congruence.
Qed.

Lemma request_on_free_channel (pwm : pwm_device) (w : world) (k : clk) :
  tcu_leased w (hwpwm pwm) = false ->
  clk_lookup P (clk_name (hwpwm pwm)) = CLK k ->
  clk_enable_status P k = 0 ->
  exists w', jz4740_pwm_request P pwm w = Done 0 w'.
Proof.
  intros Hl Hk Hs. unfold jz4740_pwm_request. drv_run.
  rewrite Hl. cbn. rewrite Hk. cbn. rewrite Hs. cbn. eauto.
Qed.

(** X1: a successful request followed by free gives back everything the
    request took: the lease table, the clock references and the clock
    enable counts are as before the request, and no register was touched.
    The clock is disabled and put before the channel is released, and it is
    the clock the request recorded; free leaves that clock in
    [jz->clks]. *)
Theorem request_free_round_trip (pwm : pwm_device) (w w1 w2 : world) :
  jz4740_pwm_request P pwm w = Done 0 w1 ->
  jz4740_pwm_free P pwm w1 = Done tt w2 ->
  (forall c, tcu_leased w2 c = tcu_leased w c) /\
  (forall k, clk_refs w2 k = clk_refs w k) /\
  (forall k, clk_enabled w2 k = clk_enabled w k) /\
  (forall r, tcu_regs w2 r = tcu_regs w r) /\
  exists k,
    jz_clks w2 (hwpwm pwm) = Some k /\
    log w2 = log w ++
      [EvTcuRequestChannel (hwpwm pwm);
       EvClkGet (clk_name (hwpwm pwm));
       EvClkPrepareEnable (Some k);
       EvClkDisableUnprepare (Some k);
       EvClkPut (Some k);
       EvTcuReleaseChannel (hwpwm pwm)].
Proof.
  intros Hreq Hfree.
  destruct (request_success_world _ _ _ Hreq) as (k & Hk & Hl & Hs & ->).
  rewrite free_run in Hfree. injection Hfree as <-.
  unfold effects, effect, set_jz_clks; cbn. rewrite Hl, Hk, Hs, upd_same. cbn.
  repeat split; try intros x.
  - rewrite upd_twice. rewrite <- Hl at 1. apply upd_restore.
  - rewrite upd_twice, upd_same, Nat.pred_succ. apply upd_restore.
  - rewrite upd_twice, upd_same, Nat.pred_succ. apply upd_restore.
  - exists k. split; [reflexivity |]. rewrite <- !app_assoc. reflexivity.
Qed.

(** X2: once a requested channel has been freed it can be requested
    again. *)
Theorem request_after_free (pwm : pwm_device) (w w1 w2 : world) :
  jz4740_pwm_request P pwm w = Done 0 w1 ->
  jz4740_pwm_free P pwm w1 = Done tt w2 ->
  exists w3, jz4740_pwm_request P pwm w2 = Done 0 w3.
Proof.
  intros Hreq Hfree.
  destruct (request_success_world _ _ _ Hreq) as (k & Hk & Hl & Hs & ->).
  rewrite free_run in Hfree. injection Hfree as <-.
  apply (request_on_free_channel pwm _ k); [| exact Hk | exact Hs].
  unfold effects, effect, set_jz_clks; cbn. apply upd_same.
Qed.

(** *** Enable and disable *)

Lemma channel_bit_range (c : nat) :
  (c < NUM_PWM)%nat -> 0 <= Z.of_nat c < 32 /\ 0 < 2 ^ Z.of_nat c < 2 ^ 32.
Proof.
  unfold NUM_PWM. intros Hc. split; [lia |].
  split; [apply Z.pow_pos_nonneg; lia | apply Z.pow_lt_mono_r; lia].
Qed.

Lemma u32_BIT_channel (a : arch) (c : nat) :
  (c < NUM_PWM)%nat -> u32 (BIT a c) = 2 ^ Z.of_nat c.
Proof.
  intros Hc. rewrite BIT_channel by exact Hc.
  apply u32_small. destruct (channel_bit_range c Hc). lia.
Qed.

Lemma land_pow2 (y c : Z) :
  0 <= c -> Z.land y (2 ^ c) = if Z.testbit y c then 2 ^ c else 0.
Proof.
  intros Hc. apply Z.bits_inj'. intros n Hn.
  rewrite Z.land_spec, Z.pow2_bits_eqb by lia.
  destruct (c =? n) eqn:E.
  - apply Z.eqb_eq in E. subst n. rewrite andb_true_r.
    destruct (Z.testbit y c); [now rewrite Z.pow2_bits_eqb, Z.eqb_refl by lia |].
    now rewrite Z.testbit_0_l.
  - rewrite andb_false_r.
    destruct (Z.testbit y c); [now rewrite Z.pow2_bits_eqb, E by lia |].
    now rewrite Z.testbit_0_l.
Qed.

(** The driver's test of the running status is the channel's bit. *)
Lemma channel_running_testbit (a : arch) (regs : tcu_reg -> Z) (c : nat) :
  (c < NUM_PWM)%nat ->
  channel_running a regs c = Z.testbit (regs TCU_REG_TER) (Z.of_nat c).
Proof.
  intros Hc. destruct (channel_bit_range c Hc) as [Hr Hp].
  unfold channel_running. rewrite BIT_channel by exact Hc.
  rewrite land_pow2, u32_testbit by lia.
  destruct (Z.testbit (regs TCU_REG_TER) (Z.of_nat c)).
  - destruct (2 ^ Z.of_nat c =? 0) eqn:E; [| reflexivity].
    apply Z.eqb_eq in E. lia.
  - reflexivity.
Qed.

Lemma tcu_reg_eq_dec_neq (r s : tcu_reg) (T : Type) (x y : T) :
  r <> s -> (if tcu_reg_eq_dec r s then x else y) = y.
Proof. intros H. destruct (tcu_reg_eq_dec r s); [contradiction | reflexivity]. Qed.

(** The register file after the calls of the enable sequence. *)
Lemma regs_after_enable (c : nat) (w : world) (r : tcu_reg) :
  tcu_regs (effects P (enable_events P c) w) r =
  if tcu_reg_eq_dec r TCU_REG_TER then
    Z.lor (tcu_regs w TCU_REG_TER) (u32 (BIT (plat_arch P) c))
  else if tcu_reg_eq_dec r (TCU_REG_TCSRc c) then
    u32 (Z.lor (Z.land (tcu_regs w (TCU_REG_TCSRc c)) (Z.lnot (u32 (TCU_TCSR_PWM_EN P))))
               (Z.land (u32 (TCU_TCSR_PWM_EN P)) (u32 (TCU_TCSR_PWM_EN P))))
  else tcu_regs w r.
Proof.
  unfold effects, effect, enable_events; cbn. unfold upd.
  destruct (tcu_reg_eq_dec r TCU_REG_TER) as [-> | Hter]; [reflexivity |].
  reflexivity.
Qed.

Lemma regs_after_disable (c : nat) (w : world) (r : tcu_reg) :
  tcu_regs (effects P (disable_events P c) w) r =
  if tcu_reg_eq_dec r TCU_REG_TER then
    Z.land (tcu_regs w TCU_REG_TER) (Z.lnot (u32 (BIT (plat_arch P) c)))
  else if tcu_reg_eq_dec r (TCU_REG_TCSRc c) then
    u32 (Z.lor (Z.land (tcu_regs w (TCU_REG_TCSRc c)) (Z.lnot (u32 (TCU_TCSR_PWM_EN P))))
               (Z.land 0 (u32 (TCU_TCSR_PWM_EN P))))
  else tcu_regs w r.
Proof.
  unfold effects, effect, disable_events; cbn. unfold upd.
  destruct (tcu_reg_eq_dec r TCU_REG_TER) as [-> | Hter]; [reflexivity |].
  reflexivity.
Qed.

(** X3: enabling a channel makes it run and sets the output-enable bits of
    its control register; the other bits of that register, the running
    bits of the other channels and every other register stay as they
    were. *)
Theorem enable_starts_channel (pwm : pwm_device) (w w' : world) :
  (hwpwm pwm < NUM_PWM)%nat ->
  jz4740_pwm_enable P pwm w = Done 0 w' ->
  channel_running (plat_arch P) (tcu_regs w') (hwpwm pwm) = true /\
  (forall n, 0 <= n -> n <> Z.of_nat (hwpwm pwm) ->
     Z.testbit (tcu_regs w' TCU_REG_TER) n = Z.testbit (tcu_regs w TCU_REG_TER) n) /\
  (forall n, 0 <= n < 32 ->
     Z.testbit (tcu_regs w' (TCU_REG_TCSRc (hwpwm pwm))) n =
     Z.testbit (TCU_TCSR_PWM_EN P) n ||
     Z.testbit (tcu_regs w (TCU_REG_TCSRc (hwpwm pwm))) n) /\
  (forall r, r <> TCU_REG_TER -> r <> TCU_REG_TCSRc (hwpwm pwm) ->
     tcu_regs w' r = tcu_regs w r).
Proof.
  intros Hc Hrun. rewrite enable_run in Hrun. injection Hrun as <-.
  destruct (channel_bit_range _ Hc) as [Hr Hp].
  repeat split.
  - rewrite channel_running_testbit by exact Hc.
    rewrite regs_after_enable, tcu_reg_eq_dec_refl, u32_BIT_channel by exact Hc.
    rewrite Z.lor_spec, Z.pow2_bits_eqb, Z.eqb_refl by lia. apply orb_true_r.
  - intros n Hn Hne.
    rewrite regs_after_enable, tcu_reg_eq_dec_refl, u32_BIT_channel by exact Hc.
    rewrite Z.lor_spec, Z.pow2_bits_eqb by lia.
    destruct (Z.of_nat (hwpwm pwm) =? n) eqn:E; [apply Z.eqb_eq in E; congruence |].
    apply orb_false_r.
  - intros n Hn.
    rewrite regs_after_enable, tcu_reg_eq_dec_neq, tcu_reg_eq_dec_refl by discriminate.
    rewrite u32_testbit, Z.lor_spec, !Z.land_spec, Z.lnot_spec, u32_testbit by lia.
    destruct (Z.testbit (TCU_TCSR_PWM_EN P) n), (Z.testbit (tcu_regs w _) n); reflexivity.
  - intros r Hter Hcsr.
    rewrite regs_after_enable, !tcu_reg_eq_dec_neq by assumption. reflexivity.
Qed.

(** X4: disabling a channel stops it and clears the output-enable bits of
    its control register; the other bits of that register, the running
    bits of the other channels and every other register stay as they
    were. *)
Theorem disable_stops_channel (pwm : pwm_device) (w w' : world) :
  (hwpwm pwm < NUM_PWM)%nat ->
  jz4740_pwm_disable P pwm w = Done tt w' ->
  channel_running (plat_arch P) (tcu_regs w') (hwpwm pwm) = false /\
  (forall n, 0 <= n -> n <> Z.of_nat (hwpwm pwm) ->
     Z.testbit (tcu_regs w' TCU_REG_TER) n = Z.testbit (tcu_regs w TCU_REG_TER) n) /\
  (forall n, 0 <= n < 32 ->
     Z.testbit (tcu_regs w' (TCU_REG_TCSRc (hwpwm pwm))) n =
     negb (Z.testbit (TCU_TCSR_PWM_EN P) n) &&
     Z.testbit (tcu_regs w (TCU_REG_TCSRc (hwpwm pwm))) n) /\
  (forall r, r <> TCU_REG_TER -> r <> TCU_REG_TCSRc (hwpwm pwm) ->
     tcu_regs w' r = tcu_regs w r).
Proof.
  intros Hc Hrun. rewrite disable_run in Hrun. injection Hrun as <-.
  destruct (channel_bit_range _ Hc) as [Hr Hp].
  repeat split.
  - rewrite channel_running_testbit by exact Hc.
    rewrite regs_after_disable, tcu_reg_eq_dec_refl, u32_BIT_channel by exact Hc.
    rewrite Z.land_spec, Z.lnot_spec, Z.pow2_bits_eqb, Z.eqb_refl by lia.
    apply andb_false_r.
  - intros n Hn Hne.
    rewrite regs_after_disable, tcu_reg_eq_dec_refl, u32_BIT_channel by exact Hc.
    rewrite Z.land_spec, Z.lnot_spec, Z.pow2_bits_eqb by lia.
    destruct (Z.of_nat (hwpwm pwm) =? n) eqn:E; [apply Z.eqb_eq in E; congruence |].
    apply andb_true_r.
  - intros n Hn.
    rewrite regs_after_disable, tcu_reg_eq_dec_neq, tcu_reg_eq_dec_refl by discriminate.
    rewrite u32_testbit, Z.lor_spec, !Z.land_spec, Z.lnot_spec, u32_testbit by lia.
    rewrite Z.testbit_0_l.
    destruct (Z.testbit (TCU_TCSR_PWM_EN P) n), (Z.testbit (tcu_regs w _) n); reflexivity.
  - intros r Hter Hcsr.
    rewrite regs_after_disable, !tcu_reg_eq_dec_neq by assumption. reflexivity.
Qed.

(** *** Configuration: the world after a call *)

Lemma config_success_world (pwm : pwm_device) (duty_ns period_ns : Z) (w w' : world) :
  jz4740_pwm_config P pwm duty_ns period_ns w = Done 0 w' ->
  exists qs rate tmp,
    RateSolver (rounded P (jz_clks w (hwpwm pwm))) period_ns
      (initial_rate (plat_arch P) w (jz_clks w (hwpwm pwm))) qs (Break rate tmp) /\
    u32 period_ns <> 0 /\
    w' = effects P
           (config_events P (jz_clks w (hwpwm pwm)) (hwpwm pwm) qs rate
              (channel_running (plat_arch P) (tcu_regs w) (hwpwm pwm))
              (duty_ticks (plat_arch P) tmp duty_ns period_ns) tmp) w.
Proof.
  intros Hrun.
  destruct (config_run P pwm duty_ns period_ns w) as (qs & x & Hsolve & Heq).
  rewrite Heq in Hrun. clear Heq. destruct x as [rate tmp | r].
  - destruct (u32 period_ns =? 0) eqn:Hz; [discriminate |].
    cbv zeta in Hrun. injection Hrun as <-.
    exists qs, rate, tmp. split; [exact Hsolve |].
    split; [now apply Z.eqb_neq |].
    destruct (RateSolver_break _ _ _ _ _ _ Hsolve) as [_ Htmp].
    rewrite period_ticks_small by exact Htmp. reflexivity.
  - apply RateSolver_return in Hsolve. subst r. discriminate.
Qed.

Lemma config_failure_world (pwm : pwm_device) (duty_ns period_ns : Z) (w w' : world)
  (r : Z) :
  jz4740_pwm_config P pwm duty_ns period_ns w = Done r w' ->
  r <> 0 ->
  r = - EINVAL /\
  exists qs,
    w' = effects P (EvClkGetRate (jz_clks w (hwpwm pwm)) ::
                    map (EvClkRoundRate (jz_clks w (hwpwm pwm))) qs) w.
Proof.
  intros Hrun Hr.
  destruct (config_run P pwm duty_ns period_ns w) as (qs & x & Hsolve & Heq).
  rewrite Heq in Hrun. clear Heq. destruct x as [rate tmp | r0].
  - destruct (u32 period_ns =? 0); [discriminate |].
    cbv zeta in Hrun. injection Hrun as <- _. contradiction.
  - injection Hrun as <- <-. apply RateSolver_return in Hsolve.
    split; [exact Hsolve | eauto].
Qed.

(** Fields that a call other than the resource calls leaves alone. *)
Lemma effects_keep_resources (evs : list event) :
  forall w,
    forallb (fun e => negb (is_resource_call e)) evs = true ->
    tcu_leased (effects P evs w) = tcu_leased w /\
    clk_refs (effects P evs w) = clk_refs w /\
    clk_enabled (effects P evs w) = clk_enabled w /\
    jz_clks (effects P evs w) = jz_clks w.
Proof.
  induction evs as [| e evs IH]; intros w H; [repeat split |].
  cbn in H. apply andb_true_iff in H. destruct H as [He Hevs].
  rewrite effects_cons. destruct (IH (effect P e w) Hevs) as (H1 & H2 & H3 & H4).
  rewrite H1, H2, H3, H4.
  destruct e; try discriminate He; repeat split.
Qed.

Lemma round_rate_no_resource (k : option clk) (qs : list Z) :
  forallb (fun e => negb (is_resource_call e)) (map (EvClkRoundRate k) qs) = true.
Proof. induction qs; cbn; auto. Qed.

Lemma reprogram_no_resource (c : nat) (en : bool) (duty period : Z) :
  forallb (fun e => negb (is_resource_call e)) (reprogram_events P c en duty period) = true.
Proof. destruct en; reflexivity. Qed.

Lemma config_events_no_resource (k : option clk) (c : nat) (qs : list Z) (rate : Z)
  (en : bool) (duty period : Z) :
  forallb (fun e => negb (is_resource_call e))
    (config_events P k c qs rate en duty period) = true.
Proof.
  unfold config_events. cbn [forallb is_resource_call negb andb].
  rewrite forallb_app, round_rate_no_resource.
  cbn [forallb is_resource_call negb andb]. apply reprogram_no_resource.
Qed.

(** The clock rates only move on [clk_set_rate]. *)
Lemma clk_rate_round_rate (k : option clk) (qs : list Z) :
  forall w, clk_rate (effects P (map (EvClkRoundRate k) qs) w) = clk_rate w.
Proof.
  induction qs as [| q qs IH]; intros w; [reflexivity |].
  cbn [map]. rewrite effects_cons, IH. reflexivity.
Qed.

Lemma clk_rate_reprogram (c : nat) (en : bool) (duty period : Z) (w : world) :
  clk_rate (effects P (reprogram_events P c en duty period) w) = clk_rate w.
Proof. destruct en; reflexivity. Qed.

Lemma clk_rate_after_config (k : option clk) (c : nat) (qs : list Z) (rate : Z)
  (en : bool) (duty period : Z) (w : world) :
  clk_rate (effects P (config_events P k c qs rate en duty period) w) =
  clk_rate_effect (EvClkSetRate k rate) (clk_rate w).
Proof.
  unfold config_events.
  rewrite effects_cons, effects_app, 2 effects_cons, clk_rate_reprogram.
  unfold effect at 1 2. cbn [clk_rate]. rewrite clk_rate_round_rate. reflexivity.
Qed.

(** The register file after a successful call is the one the
    reprogramming stores leave. *)
Lemma regs_after_config (k : option clk) (c : nat) (qs : list Z) (rate : Z)
  (en : bool) (duty period : Z) (w : world) :
  tcu_regs (effects P (config_events P k c qs rate en duty period) w) =
  fold_left (fun regs e => regmap_effect e regs)
    (reprogram_events P c en duty period) (tcu_regs w).
Proof.
  unfold config_events.
  rewrite effects_cons, effects_app, 2 effects_cons, tcu_regs_effects.
  unfold effect at 1 2. cbn [tcu_regs regmap_effect].
  rewrite tcu_regs_no_store by apply reg_stores_round_rate. reflexivity.
Qed.

Lemma regs_after_reprogram (c : nat) (en : bool) (duty period : Z)
  (regs : tcu_reg -> Z) (r : tcu_reg) :
  r <> TCU_REG_TER -> r <> TCU_REG_TCSRc c ->
  fold_left (fun regs e => regmap_effect e regs)
    (reprogram_events P c en duty period) regs r =
  if tcu_reg_eq_dec r (TCU_REG_TDFRc c) then u32 period
  else if tcu_reg_eq_dec r (TCU_REG_TDHRc c) then u32 duty
  else if tcu_reg_eq_dec r (TCU_REG_TCNTc c) then 0
  else regs r.
Proof.
  intros Hter Hcsr.
  destruct en; cbn; unfold upd;
    destruct (tcu_reg_eq_dec r TCU_REG_TER); try contradiction;
    destruct (tcu_reg_eq_dec r (TCU_REG_TCSRc c)); try contradiction;
    reflexivity.
Qed.

(** The control register after the reprogramming stores, bit by bit. *)
Lemma tcsr_after_reprogram (c : nat) (en : bool) (duty period : Z)
  (regs : tcu_reg -> Z) (n : Z) :
  0 <= n < 32 ->
  Z.testbit (fold_left (fun regs e => regmap_effect e regs)
               (reprogram_events P c en duty period) regs (TCU_REG_TCSRc c)) n =
  Z.testbit (TCU_TCSR_PWM_SD P) n ||
  (Z.testbit (TCU_TCSR_PWM_EN P) n && en) ||
  Z.testbit (regs (TCU_REG_TCSRc c)) n.
Proof.
  intros Hn.
  destruct en; cbn; unfold upd; rewrite !tcu_reg_eq_dec_refl;
    repeat (rewrite ?u32_testbit, ?Z.lor_spec, ?Z.land_spec, ?Z.lnot_spec,
              ?Z.testbit_0_l by lia);
    destruct (Z.testbit (TCU_TCSR_PWM_SD P) n),
             (Z.testbit (TCU_TCSR_PWM_EN P) n),
             (Z.testbit (regs (TCU_REG_TCSRc c)) n); reflexivity.
Qed.

Lemma RateSolver_rate_bounds (round : Z -> Z) (period_ns rate0 : Z) (qs : list Z)
  (rate tmp : Z) (m : Z) :
  (forall x, 0 <= round x < m) ->
  0 <= rate0 < m ->
  RateSolver round period_ns rate0 qs (Break rate tmp) ->
  0 <= rate <= rate0 /\ rate < m.
Proof.
  intros Hround H0 H. remember (Break rate tmp) as x eqn:Hx.
  induction H as [r Hfit | r qs x Hbig Hlt Hrun IH | r Hbig Hge].
  - injection Hx as <- _. lia.
  - specialize (IH (Hround (r / 2)) Hx). lia.
  - discriminate.
Qed.

Lemma rounded_range (k : option clk) (x : Z) :
  0 <= rounded P k x < 2 ^ BITS_PER_LONG (plat_arch P).
Proof. apply to_ulong_range. Qed.

Lemma initial_rate_range (w : world) (k : option clk) :
  0 <= initial_rate (plat_arch P) w k < 2 ^ BITS_PER_LONG (plat_arch P).
Proof.
  destruct k as [k |]; cbn; [apply to_ulong_range |].
  split; [lia | apply pow2_long_pos].
Qed.

Lemma lor_land_lnot_bit (x c : Z) :
  0 <= c -> Z.testbit x c = true -> Z.lor (Z.land x (Z.lnot (2 ^ c))) (2 ^ c) = x.
Proof.
  intros Hc Hx. apply Z.bits_inj'. intros n Hn.
  rewrite Z.lor_spec, Z.land_spec, Z.lnot_spec, Z.pow2_bits_eqb by lia.
  destruct (c =? n) eqn:E.
  - apply Z.eqb_eq in E. subst n. rewrite Hx. apply orb_true_r.
  - cbn. now rewrite andb_true_r, orb_false_r.
Qed.

(** *** Configuration: what a call changes and what it keeps *)

Lemma queries_change_nothing (k : option clk) (qs : list Z) (w : world) :
  (forall reg,
     tcu_regs (effects P (EvClkGetRate k :: map (EvClkRoundRate k) qs) w) reg =
     tcu_regs w reg) /\
  (forall k',
     clk_rate (effects P (EvClkGetRate k :: map (EvClkRoundRate k) qs) w) k' =
     clk_rate w k') /\
  same_resources w (effects P (EvClkGetRate k :: map (EvClkRoundRate k) qs) w).
Proof.
  split; [| split].
  - intros reg. rewrite tcu_regs_no_store; [reflexivity |].
    change (EvClkGetRate ?k :: ?l) with ([EvClkGetRate k] ++ l).
    rewrite reg_stores_app, reg_stores_round_rate. reflexivity.
  - intros k'. rewrite effects_cons, clk_rate_round_rate. reflexivity.
  - destruct (effects_keep_resources
                (EvClkGetRate k :: map (EvClkRoundRate k) qs) w)
      as (H1 & H2 & H3 & H4).
    { cbn [forallb is_resource_call negb andb]. apply round_rate_no_resource. }
    unfold same_resources. rewrite H1, H2, H3, H4. auto.
Qed.


(** X6: a call on one channel keeps the whole running-status register,
    every register that is not one of the channel's own four, every lease
    and clock handle, and the rate of every clock but the channel's. *)
Theorem config_frame (pwm : pwm_device) (duty_ns period_ns : Z)
  (w w' : world) (r : Z) :
  (hwpwm pwm < NUM_PWM)%nat ->
  jz4740_pwm_config P pwm duty_ns period_ns w = Done r w' ->
  tcu_regs w' TCU_REG_TER = tcu_regs w TCU_REG_TER /\
  (forall reg, reg <> TCU_REG_TER -> ~ In reg (channel_regs (hwpwm pwm)) ->
     tcu_regs w' reg = tcu_regs w reg) /\
  same_resources w w' /\
  (forall k, jz_clks w (hwpwm pwm) <> Some k -> clk_rate w' k = clk_rate w k).
Proof.
  intros Hc Hrun. destruct (Z.eq_dec r 0) as [-> | Hr].
  - destruct (config_success_world _ _ _ _ _ Hrun) as (qs & rate & tmp & _ & _ & ->).
    destruct (channel_bit_range _ Hc) as [Hrange Hpow].
    split; [| split; [| split]].
    + rewrite regs_after_config, ter_after_reprogram.
      destruct (channel_running _ _ _) eqn:Hen; [| reflexivity].
      rewrite channel_running_testbit in Hen by exact Hc.
      rewrite u32_BIT_channel by exact Hc.
      apply lor_land_lnot_bit; [lia | exact Hen].
    + intros reg Hter Hin. cbn in Hin.
      rewrite regs_after_config, regs_after_reprogram; [| exact Hter | intuition].
      rewrite !tcu_reg_eq_dec_neq by intuition. reflexivity.
    + destruct (effects_keep_resources _ w (config_events_no_resource
                  (jz_clks w (hwpwm pwm)) (hwpwm pwm) qs rate
                  (channel_running (plat_arch P) (tcu_regs w) (hwpwm pwm))
                  (duty_ticks (plat_arch P) tmp duty_ns period_ns) tmp))
        as (H1 & H2 & H3 & H4).
      unfold same_resources. rewrite H1, H2, H3, H4. auto.
    + intros k Hk. rewrite clk_rate_after_config.
      destruct (jz_clks w (hwpwm pwm)) as [k0 |]; [| reflexivity].
      cbn. unfold upd. destruct (Nat.eq_dec k k0); [congruence | reflexivity].
  - destruct (config_failure_world _ _ _ _ _ _ Hrun Hr) as (_ & qs & ->).
    destruct (queries_change_nothing (jz_clks w (hwpwm pwm)) qs w)
      as (Hregs & Hrate & Hres).
    auto.
Qed.

(** X7: after a successful call the period register holds the tick count
    of the rate the search accepted, at most [0xFFFF], the counter register
    holds 0, the channel's clock runs at the accepted rate, and that rate
    is not above the rate the clock had. *)
Theorem config_registers (pwm : pwm_device) (duty_ns period_ns : Z) (w w' : world) :
  jz4740_pwm_config P pwm duty_ns period_ns w = Done 0 w' ->
  exists rate,
    0 <= rate <= initial_rate (plat_arch P) w (jz_clks w (hwpwm pwm)) /\
    tcu_regs w' (TCU_REG_TDFRc (hwpwm pwm)) = ticks_at rate period_ns /\
    0 <= tcu_regs w' (TCU_REG_TDFRc (hwpwm pwm)) <= 65535 /\
    tcu_regs w' (TCU_REG_TCNTc (hwpwm pwm)) = 0 /\
    (forall k, jz_clks w (hwpwm pwm) = Some k -> clk_rate w' k = rate).
Proof.
  intros Hrun.
  destruct (config_success_world _ _ _ _ _ Hrun) as (qs & rate & tmp & Hsolve & _ & ->).
  destruct (RateSolver_break _ _ _ _ _ _ Hsolve) as [Htmp Hfit].
  destruct (RateSolver_rate_bounds _ _ _ _ _ _ _
              (rounded_range (jz_clks w (hwpwm pwm)))
              (initial_rate_range w (jz_clks w (hwpwm pwm))) Hsolve) as [Hle _].
  exists rate. split; [exact Hle |].
  assert (Hper : tcu_regs
                   (effects P
                      (config_events P (jz_clks w (hwpwm pwm)) (hwpwm pwm) qs rate
                         (channel_running (plat_arch P) (tcu_regs w) (hwpwm pwm))
                         (duty_ticks (plat_arch P) tmp duty_ns period_ns) tmp) w)
                   (TCU_REG_TDFRc (hwpwm pwm)) = tmp).
  { rewrite regs_after_config, regs_after_reprogram by discriminate.
    rewrite tcu_reg_eq_dec_refl. apply u32_small. lia. }
  rewrite Hper. repeat split; try lia.
  - rewrite regs_after_config, regs_after_reprogram by discriminate.
    rewrite !tcu_reg_eq_dec_neq by discriminate. apply tcu_reg_eq_dec_refl.
  - intros k Hk. rewrite clk_rate_after_config, Hk. cbn. apply upd_same.
Qed.

(** X8: a successful call only ever sets bits of the channel's control
    register: the abrupt-shutdown bits are set, the output-enable bits are
    set if the channel was running, and every bit that was set stays
    set. *)
Theorem config_control_bits (pwm : pwm_device) (duty_ns period_ns : Z)
  (w w' : world) (n : Z) :
  jz4740_pwm_config P pwm duty_ns period_ns w = Done 0 w' ->
  0 <= n < 32 ->
  Z.testbit (tcu_regs w' (TCU_REG_TCSRc (hwpwm pwm))) n =
  Z.testbit (TCU_TCSR_PWM_SD P) n ||
  (Z.testbit (TCU_TCSR_PWM_EN P) n &&
   channel_running (plat_arch P) (tcu_regs w) (hwpwm pwm)) ||
  Z.testbit (tcu_regs w (TCU_REG_TCSRc (hwpwm pwm))) n.
Proof.
  intros Hrun Hn.
  destruct (config_success_world _ _ _ _ _ Hrun) as (qs & rate & tmp & _ & _ & ->).
  rewrite regs_after_config. apply tcsr_after_reprogram. exact Hn.
Qed.

(** *** Configuration: the duty register *)

(** The duty and period registers after a successful call. *)
Lemma config_duty_period (pwm : pwm_device) (duty_ns period_ns : Z) (w w' : world) :
  jz4740_pwm_config P pwm duty_ns period_ns w = Done 0 w' ->
  0 <= tcu_regs w' (TCU_REG_TDFRc (hwpwm pwm)) <= 65535 /\
  u32 period_ns <> 0 /\
  tcu_regs w' (TCU_REG_TDHRc (hwpwm pwm)) =
    u32 (duty_ticks (plat_arch P) (tcu_regs w' (TCU_REG_TDFRc (hwpwm pwm)))
           duty_ns period_ns).
Proof.
  intros Hrun.
  destruct (config_success_world _ _ _ _ _ Hrun) as (qs & rate & tmp & Hsolve & Hz & ->).
  destruct (RateSolver_break _ _ _ _ _ _ Hsolve) as [_ Hfit].
  rewrite !regs_after_config, !regs_after_reprogram by discriminate.
  rewrite tcu_reg_eq_dec_refl, tcu_reg_eq_dec_neq, tcu_reg_eq_dec_refl by discriminate.
  rewrite (u32_small tmp) by lia. auto.
Qed.

Lemma spec_duty_ticks_min (period duty_ns period_ns : Z) :
  0 <= period -> 0 < period_ns -> 0 <= duty_ns ->
  spec_duty_ticks period duty_ns period_ns =
  Z.min (period - 1) (period - period * duty_ns / period_ns).
Proof.
  intros Hp Hn Hd. unfold spec_duty_ticks. cbv zeta.
  assert (0 <= period * duty_ns / period_ns) by (apply Z.div_pos; nia).
  destruct (period <=? period - period * duty_ns / period_ns) eqn:E.
  - apply Z.leb_le in E. lia.
  - apply Z.leb_gt in E. lia.
Qed.

(** X9: whenever a successful call stores a period of at least one tick,
    the duty it stores is strictly below that period, whatever [duty_ns]
    was. *)
Theorem config_duty_below_period (pwm : pwm_device) (duty_ns period_ns : Z)
  (w w' : world) :
  jz4740_pwm_config P pwm duty_ns period_ns w = Done 0 w' ->
  0 < tcu_regs w' (TCU_REG_TDFRc (hwpwm pwm)) ->
  0 <= tcu_regs w' (TCU_REG_TDHRc (hwpwm pwm))
    < tcu_regs w' (TCU_REG_TDFRc (hwpwm pwm)) /\
  tcu_regs w' (TCU_REG_TDFRc (hwpwm pwm)) <= 65535.
Proof.
  intros Hrun Hpos.
  destruct (config_duty_period _ _ _ _ _ Hrun) as (Hper & _ & ->).
  pose proof (duty_ticks_below_period (plat_arch P) _ duty_ns period_ns Hpos) as Hd.
  rewrite u32_small by lia. lia.
Qed.

(** X10: for [0 <= duty_ns <= period_ns] and a stored period of at least
    one tick, the duty register holds the period minus the ticks of the
    duty time, rounded down, and at most the period minus one. *)
Theorem config_duty_formula (pwm : pwm_device) (duty_ns period_ns : Z) (w w' : world) :
  0 < period_ns <= INT_MAX ->
  0 <= duty_ns <= period_ns ->
  jz4740_pwm_config P pwm duty_ns period_ns w = Done 0 w' ->
  0 < tcu_regs w' (TCU_REG_TDFRc (hwpwm pwm)) ->
  tcu_regs w' (TCU_REG_TDHRc (hwpwm pwm)) =
  Z.min (tcu_regs w' (TCU_REG_TDFRc (hwpwm pwm)) - 1)
        (tcu_regs w' (TCU_REG_TDFRc (hwpwm pwm)) -
         tcu_regs w' (TCU_REG_TDFRc (hwpwm pwm)) * duty_ns / period_ns).
Proof.
  intros Hp Hd Hrun Hpos.
  destruct (config_duty_period _ _ _ _ _ Hrun) as (Hper & _ & Hduty).
  pose proof (duty_ticks_below_period (plat_arch P) _ duty_ns period_ns Hpos) as Hlt.
  rewrite Hduty, u32_small by lia.
  rewrite duty_ticks_spec by lia. apply spec_duty_ticks_min; lia.
Qed.

(** X11: the two ends of the duty range.  A duty time equal to the period
    stores 0 in the duty register; a duty time of 0 stores the period minus
    one, not the period. *)
Theorem config_duty_extremes (pwm : pwm_device) (duty_ns period_ns : Z) (w w' : world) :
  0 < period_ns <= INT_MAX ->
  jz4740_pwm_config P pwm duty_ns period_ns w = Done 0 w' ->
  0 < tcu_regs w' (TCU_REG_TDFRc (hwpwm pwm)) ->
  (duty_ns = period_ns -> tcu_regs w' (TCU_REG_TDHRc (hwpwm pwm)) = 0) /\
  (duty_ns = 0 ->
   tcu_regs w' (TCU_REG_TDHRc (hwpwm pwm)) =
   tcu_regs w' (TCU_REG_TDFRc (hwpwm pwm)) - 1).
Proof.
  intros Hp Hrun Hpos.
  destruct (config_duty_period _ _ _ _ _ Hrun) as (Hper & _ & Hduty).
  pose proof (duty_ticks_below_period (plat_arch P) _ duty_ns period_ns Hpos) as Hlt.
  rewrite Hduty, u32_small by lia. split; intros ->.
  - rewrite duty_ticks_spec, spec_duty_ticks_min by lia.
    rewrite Z.div_mul by lia. lia.
  - rewrite duty_ticks_spec, spec_duty_ticks_min by lia.
    rewrite Z.mul_0_r, Z.div_0_l by lia. lia.
Qed.

(** X12: for a period that fits the counter, a longer duty time never
    gives a larger duty register. *)
Theorem duty_ticks_antitone (a : arch) (period d1 d2 period_ns : Z) :
  0 < period <= 65535 ->
  0 < period_ns <= INT_MAX ->
  0 <= d1 <= d2 ->
  d2 <= period_ns ->
  duty_ticks a period d2 period_ns <= duty_ticks a period d1 period_ns.
Proof.
  intros Hp Hn Hd Hd2.
  rewrite !duty_ticks_spec, !spec_duty_ticks_min by lia.
  assert (period * d1 / period_ns <= period * d2 / period_ns)
    by (apply Z.div_le_mono; nia).
  lia.
Qed.

(** *** Configuration: exact tick count, and calling twice *)

Lemma ticks_at_exact (rate period_ns : Z) :
  0 <= rate < 2 ^ 32 -> 0 <= period_ns <= INT_MAX ->
  ticks_at rate period_ns = rate * period_ns / 1000000000.
Proof.
  unfold INT_MAX, ticks_at. intros Hr Hp.
  rewrite (u64_small rate), (u64_small period_ns) by lia.
  rewrite u64_small by nia. reflexivity.
Qed.

(** X13: when the clock starts below 2^32 Hz (always so with 32-bit
    longs), the 64-bit product does not wrap: the period register holds
    exactly the integer part of the final clock rate times [period_ns] over
    10^9. *)
Theorem config_period_exact (pwm : pwm_device) (duty_ns period_ns : Z)
  (w w' : world) (k : clk) :
  0 <= period_ns <= INT_MAX ->
  jz_clks w (hwpwm pwm) = Some k ->
  initial_rate (plat_arch P) w (Some k) < 2 ^ 32 ->
  jz4740_pwm_config P pwm duty_ns period_ns w = Done 0 w' ->
  tcu_regs w' (TCU_REG_TDFRc (hwpwm pwm)) =
  clk_rate w' k * period_ns / 1000000000.
Proof.
  intros Hp Hk Hinit Hrun.
  destruct (config_success_world _ _ _ _ _ Hrun) as (qs & rate & tmp & Hsolve & _ & ->).
  rewrite Hk in *.
  destruct (RateSolver_break _ _ _ _ _ _ Hsolve) as [Htmp Hfit].
  destruct (RateSolver_rate_bounds _ _ _ _ _ _ _
              (rounded_range (Some k)) (initial_rate_range w (Some k)) Hsolve)
    as [Hle _].
  rewrite clk_rate_after_config. cbn. rewrite upd_same.
  rewrite regs_after_config, regs_after_reprogram by discriminate.
  rewrite tcu_reg_eq_dec_refl, u32_small by lia.
  rewrite Htmp. apply ticks_at_exact; lia.
Qed.

(** X14: calling again with the same arguments after a success finds the
    clock at the accepted rate: the second call succeeds without a single
    query of the rounding, and stores the same period and duty and keeps
    every clock rate. *)
Theorem config_twice (pwm : pwm_device) (duty_ns period_ns : Z) (w w1 : world) :
  jz4740_pwm_config P pwm duty_ns period_ns w = Done 0 w1 ->
  exists w2 evs,
    jz4740_pwm_config P pwm duty_ns period_ns w1 = Done 0 w2 /\
    log w2 = log w1 ++ evs /\
    (forall k' r', ~ In (EvClkRoundRate k' r') evs) /\
    tcu_regs w2 (TCU_REG_TDFRc (hwpwm pwm)) = tcu_regs w1 (TCU_REG_TDFRc (hwpwm pwm)) /\
    tcu_regs w2 (TCU_REG_TDHRc (hwpwm pwm)) = tcu_regs w1 (TCU_REG_TDHRc (hwpwm pwm)) /\
    (forall k', clk_rate w2 k' = clk_rate w1 k').
Proof.
  intros Hrun.
  destruct (config_success_world _ _ _ _ _ Hrun) as (qs & rate & tmp & Hsolve & Hz & Hw1).
  destruct (RateSolver_break _ _ _ _ _ _ Hsolve) as [Htmp Hfit].
  destruct (RateSolver_rate_bounds _ _ _ _ _ _ _
              (rounded_range (jz_clks w (hwpwm pwm)))
              (initial_rate_range w (jz_clks w (hwpwm pwm))) Hsolve) as [Hle Hlt].
  assert (Hclks : jz_clks w1 (hwpwm pwm) = jz_clks w (hwpwm pwm))
    by (rewrite Hw1, jz_clks_effects; reflexivity).
  assert (Hrate1 : forall k, jz_clks w (hwpwm pwm) = Some k -> clk_rate w1 k = rate).
  { intros k Hk. rewrite Hw1, clk_rate_after_config, Hk. cbn. apply upd_same. }
  assert (Hinit : initial_rate (plat_arch P) w1 (jz_clks w (hwpwm pwm)) = rate).
  { destruct (jz_clks w (hwpwm pwm)) as [k |] eqn:Hk; cbn.
    - rewrite (Hrate1 k eq_refl). apply Z.mod_small. lia.
    - cbn in Hle. lia. }
  destruct (config_run P pwm duty_ns period_ns w1) as (qs2 & x2 & Hsolve2 & Heq).
  cbv zeta in Hsolve2, Heq. rewrite Hclks, Hinit in Hsolve2. rewrite Hclks in Heq.
  assert (Haccept : RateSolver (rounded P (jz_clks w (hwpwm pwm))) period_ns rate []
                      (Break rate (ticks_at rate period_ns)))
    by (apply RS_accept; lia).
  destruct (RateSolver_deterministic _ _ _ _ _ _ _ Hsolve2 Haccept) as [-> ->].
  rewrite <- Htmp in Heq. apply Z.eqb_neq in Hz. rewrite Hz in Heq.
  rewrite period_ticks_small in Heq by exact Hfit.
  fold (config_events P (jz_clks w (hwpwm pwm)) (hwpwm pwm) [] rate
          (channel_running (plat_arch P) (tcu_regs w1) (hwpwm pwm))
          (duty_ticks (plat_arch P) tmp duty_ns period_ns) tmp) in Heq.
  eexists _, _. split; [exact Heq |]. split; [apply log_effects |].
  split; [| split; [| split]].
  - intros k' r' Hin. unfold config_events, reprogram_events in Hin.
    destruct (channel_running (plat_arch P) (tcu_regs w1) (hwpwm pwm)); cbn in Hin;
      repeat (destruct Hin as [Hin | Hin]; [discriminate |]); exact Hin.
  - rewrite regs_after_config, regs_after_reprogram by discriminate.
    rewrite Hw1, regs_after_config, regs_after_reprogram by discriminate.
    rewrite !tcu_reg_eq_dec_refl. reflexivity.
  - rewrite regs_after_config, regs_after_reprogram by discriminate.
    rewrite Hw1, regs_after_config, regs_after_reprogram by discriminate.
    rewrite !(tcu_reg_eq_dec_neq (TCU_REG_TDHRc _) (TCU_REG_TDFRc _)) by discriminate.
    rewrite !tcu_reg_eq_dec_refl. reflexivity.
  - intros k'. rewrite clk_rate_after_config.
    destruct (jz_clks w (hwpwm pwm)) as [k |] eqn:Hk; [| reflexivity].
    cbn. rewrite <- (Hrate1 k eq_refl). apply upd_restore.
Qed.

(** *** Polarity *)

Lemma u32_testbit_full (x n : Z) :
  0 <= n -> Z.testbit (u32 x) n = (n <? 32) && Z.testbit x n.
Proof.
  intros Hn. unfold u32. destruct (n <? 32) eqn:E.
  - apply Z.ltb_lt in E. now rewrite Z.mod_pow2_bits_low by lia.
  - apply Z.ltb_ge in E. now rewrite Z.mod_pow2_bits_high by lia.
Qed.

(** X15: of two polarity settings in a row the last one decides: the
    register file is the one the second setting alone would have left. *)
Theorem set_polarity_last_wins (pwm : pwm_device) (p1 p2 : pwm_polarity)
  (w w1 w2 w2' : world) :
  jz4740_pwm_set_polarity P pwm p1 w = Done 0 w1 ->
  jz4740_pwm_set_polarity P pwm p2 w1 = Done 0 w2 ->
  jz4740_pwm_set_polarity P pwm p2 w = Done 0 w2' ->
  forall r, tcu_regs w2 r = tcu_regs w2' r.
Proof.
  rewrite !set_polarity_run. intros H1 H2 H2'.
  injection H1 as <-. injection H2 as <-. injection H2' as <-.
  intros r. unfold effect, regmap_effect, tcu_store, upd. cbn [tcu_regs].
  destruct (tcu_reg_eq_dec r (TCU_REG_TCSRc (hwpwm pwm))) as [-> | Hr];
    [| reflexivity].
  rewrite tcu_reg_eq_dec_refl.
  apply Z.bits_inj'. intros n Hn.
  repeat (rewrite ?u32_testbit_full, ?Z.lor_spec, ?Z.land_spec, ?Z.lnot_spec by lia).
  destruct p1, p2;
    repeat (rewrite ?u32_testbit_full, ?Z.testbit_0_l by lia);
    destruct (n <? 32), (Z.testbit (TCU_TCSR_PWM_INITL_HIGH P) n),
             (Z.testbit (tcu_regs w (TCU_REG_TCSRc (hwpwm pwm))) n); reflexivity.
Qed.

End Coverage.

(* ===================================================================== *)
(** ** Clock names and device binding                                     *)
(* ===================================================================== *)

(** X16: for each of the [NUM_PWM] channels the clock name is ["timer"]
    followed by the channel number, it fits the 16-byte buffer untruncated,
    and two channels never share a name. *)
Theorem clk_name_per_channel (c c' : nat) :
  (c < NUM_PWM)%nat -> (c' < NUM_PWM)%nat ->
  clk_name c = ("timer" ++ NilEmpty.string_of_uint (Nat.to_uint c))%string /\
  (String.length (clk_name c) < 16)%nat /\
  (clk_name c = clk_name c' -> c = c').
Proof.
  unfold NUM_PWM. intros Hc Hc'.
  do 8 (destruct c as [| c]; [
    split; [reflexivity | split; [apply Nat.ltb_lt; reflexivity |]];
    do 8 (destruct c' as [| c'];
          [intros H; first [reflexivity | vm_compute in H; discriminate H] |]);
    lia |]).
  lia.
Qed.

(** X17: a chip registered for a device matched through the driver's table
    has as many channels as the table says and never more than
    [NUM_PWM], so every channel number below [npwm] indexes [clks]
    within bounds; its base is -1 and it takes three cells. *)
Theorem probe_registers_bounded_chip (P : platform) (b : binding)
  (compatible : string) (info : struct_jz4740_soc_info) (chip : pwm_chip) :
  In (compatible, info) jz4740_pwm_dt_ids ->
  match_data b = Some info ->
  In (EvPwmchipAdd chip) (snd (jz4740_pwm_probe P b)) ->
  chip_npwm chip = num_pwms info /\
  (chip_npwm chip <= NUM_PWM)%nat /\
  chip_base chip = -1 /\
  chip_of_pwm_n_cells chip = 3%nat.
Proof.
  intros Htab Hmatch Hadd. unfold jz4740_pwm_probe in Hadd. rewrite Hmatch in Hadd.
  assert (Hinfo : (num_pwms info <= NUM_PWM)%nat).
  { destruct Htab as [E | [E | []]]; injection E as _ <-; cbn; unfold NUM_PWM; lia. }
  destruct (kzalloc_ok b), (parent_regmap b); cbn in Hadd;
    repeat (destruct Hadd as [Hadd | Hadd]; [try discriminate |]);
    try contradiction.
  injection Hadd as <-. cbn. auto.
Qed.

(** X18: probe returns 0 only when the match data, the allocation and the
    parent's regmap were all there and [pwmchip_add] returned 0; the chip
    is then registered last, after the driver data is set.  With any of
    the three missing, probe fails before it registers anything. *)
Theorem probe_success (P : platform) (b : binding) :
  (fst (jz4740_pwm_probe P b) = 0 ->
   exists info chip,
     match_data b = Some info /\
     kzalloc_ok b = true /\
     parent_regmap b = true /\
     pwmchip_add_status b = 0 /\
     snd (jz4740_pwm_probe P b) =
       [EvDeviceGetMatchData; EvDevmKzalloc; EvDevGetRegmap;
        EvPlatformSetDrvdata; EvPwmchipAdd chip]) /\
  (match_data b = None \/ kzalloc_ok b = false \/ parent_regmap b = false ->
   fst (jz4740_pwm_probe P b) <> 0 /\
   forall chip, ~ In (EvPwmchipAdd chip) (snd (jz4740_pwm_probe P b))).
Proof.
  unfold jz4740_pwm_probe. split.
  - destruct (match_data b) as [info |]; [| discriminate].
    destruct (kzalloc_ok b); [| discriminate].
    destruct (parent_regmap b); [| discriminate].
    cbn. intros Hret. eauto 10.
  - intros Hmiss.
    destruct (match_data b) as [info |]; cbn.
    + destruct (kzalloc_ok b); cbn.
      * destruct (parent_regmap b); cbn.
        -- destruct Hmiss as [H | [H | H]]; discriminate H.
        -- split; [discriminate |]. intros chip Hin.
           repeat (destruct Hin as [Hin | Hin]; [discriminate |]). exact Hin.
      * split; [discriminate |]. intros chip Hin.
        repeat (destruct Hin as [Hin | Hin]; [discriminate |]). exact Hin.
    + split; [discriminate |]. intros chip Hin.
      repeat (destruct Hin as [Hin | Hin]; [discriminate |]). exact Hin.
Qed.

(* ===================================================================== *)
(** ** The further properties on the sample platform                      *)
(* ===================================================================== *)

Lemma request_free_round_trip_witness :
  (forall c, tcu_leased freed_world c = tcu_leased probed_world c) /\
  (forall k, clk_refs freed_world k = clk_refs probed_world k) /\
  (forall k, clk_enabled freed_world k = clk_enabled probed_world k) /\
  (forall r, tcu_regs freed_world r = tcu_regs probed_world r) /\
  exists k,
    jz_clks freed_world (hwpwm pwm0) = Some k /\
    log freed_world = log probed_world ++
      [EvTcuRequestChannel (hwpwm pwm0);
       EvClkGet (clk_name (hwpwm pwm0));
       EvClkPrepareEnable (Some k);
       EvClkDisableUnprepare (Some k);
       EvClkPut (Some k);
       EvTcuReleaseChannel (hwpwm pwm0)].
Proof.
  apply (request_free_round_trip jz4740_platform pwm0 probed_world
           requested_world freed_world).
  - vm_compute. reflexivity.
  - vm_compute. reflexivity.
Defined.

Lemma request_after_free_witness :
  exists w3, jz4740_pwm_request jz4740_platform pwm0 freed_world = Done 0 w3.
Proof.
  apply (request_after_free jz4740_platform pwm0 probed_world
           requested_world freed_world).
  - vm_compute. reflexivity.
  - vm_compute. reflexivity.
Defined.

Lemma enable_starts_channel_witness :
  channel_running ILP32
    (tcu_regs (world_after (jz4740_pwm_enable jz4740_platform pwm0 idle_world) idle_world))
    (hwpwm pwm0) = true /\
  (forall n, 0 <= n -> n <> Z.of_nat (hwpwm pwm0) ->
     Z.testbit (tcu_regs (world_after (jz4740_pwm_enable jz4740_platform pwm0 idle_world)
                            idle_world) TCU_REG_TER) n =
     Z.testbit (tcu_regs idle_world TCU_REG_TER) n) /\
  (forall n, 0 <= n < 32 ->
     Z.testbit (tcu_regs (world_after (jz4740_pwm_enable jz4740_platform pwm0 idle_world)
                            idle_world) (TCU_REG_TCSRc (hwpwm pwm0))) n =
     Z.testbit (TCU_TCSR_PWM_EN jz4740_platform) n ||
     Z.testbit (tcu_regs idle_world (TCU_REG_TCSRc (hwpwm pwm0))) n) /\
  (forall r, r <> TCU_REG_TER -> r <> TCU_REG_TCSRc (hwpwm pwm0) ->
     tcu_regs (world_after (jz4740_pwm_enable jz4740_platform pwm0 idle_world)
                 idle_world) r = tcu_regs idle_world r).
Proof.
  apply (enable_starts_channel jz4740_platform pwm0 idle_world).
  - unfold NUM_PWM. simpl. lia.
  - vm_compute. reflexivity.
Defined.

Lemma disable_stops_channel_witness :
  channel_running ILP32
    (tcu_regs (world_after (jz4740_pwm_disable jz4740_platform pwm0 running_world)
                 running_world))
    (hwpwm pwm0) = false /\
  (forall n, 0 <= n -> n <> Z.of_nat (hwpwm pwm0) ->
     Z.testbit (tcu_regs (world_after (jz4740_pwm_disable jz4740_platform pwm0
                                         running_world) running_world) TCU_REG_TER) n =
     Z.testbit (tcu_regs running_world TCU_REG_TER) n) /\
  (forall n, 0 <= n < 32 ->
     Z.testbit (tcu_regs (world_after (jz4740_pwm_disable jz4740_platform pwm0
                                         running_world) running_world)
                  (TCU_REG_TCSRc (hwpwm pwm0))) n =
     negb (Z.testbit (TCU_TCSR_PWM_EN jz4740_platform) n) &&
     Z.testbit (tcu_regs running_world (TCU_REG_TCSRc (hwpwm pwm0))) n) /\
  (forall r, r <> TCU_REG_TER -> r <> TCU_REG_TCSRc (hwpwm pwm0) ->
     tcu_regs (world_after (jz4740_pwm_disable jz4740_platform pwm0 running_world)
                 running_world) r = tcu_regs running_world r).
Proof.
  apply (disable_stops_channel jz4740_platform pwm0 running_world).
  - unfold NUM_PWM. simpl. lia.
  - vm_compute. reflexivity.
Defined.


Lemma config_frame_witness :
  tcu_regs configured_world TCU_REG_TER = tcu_regs running_world TCU_REG_TER /\
  (forall reg, reg <> TCU_REG_TER -> ~ In reg (channel_regs (hwpwm pwm0)) ->
     tcu_regs configured_world reg = tcu_regs running_world reg) /\
  same_resources running_world configured_world /\
  (forall k, jz_clks running_world (hwpwm pwm0) <> Some k ->
     clk_rate configured_world k = clk_rate running_world k).
Proof.
  apply (config_frame jz4740_platform pwm0 500000 1000000 running_world
           configured_world 0).
  - unfold NUM_PWM. simpl. lia.
  - vm_compute. reflexivity.
Defined.

Lemma config_registers_witness :
  exists rate,
    0 <= rate <= initial_rate (plat_arch jz4740_platform) running_world
                   (jz_clks running_world (hwpwm pwm0)) /\
    tcu_regs configured_world (TCU_REG_TDFRc (hwpwm pwm0)) = ticks_at rate 1000000 /\
    0 <= tcu_regs configured_world (TCU_REG_TDFRc (hwpwm pwm0)) <= 65535 /\
    tcu_regs configured_world (TCU_REG_TCNTc (hwpwm pwm0)) = 0 /\
    (forall k, jz_clks running_world (hwpwm pwm0) = Some k ->
       clk_rate configured_world k = rate).
Proof.
  apply (config_registers jz4740_platform pwm0 500000 1000000 running_world
           configured_world).
  vm_compute. reflexivity.
Defined.

Lemma config_control_bits_witness :
  Z.testbit (tcu_regs configured_world (TCU_REG_TCSRc (hwpwm pwm0))) 9 =
  Z.testbit (TCU_TCSR_PWM_SD jz4740_platform) 9 ||
  (Z.testbit (TCU_TCSR_PWM_EN jz4740_platform) 9 &&
   channel_running (plat_arch jz4740_platform) (tcu_regs running_world) (hwpwm pwm0)) ||
  Z.testbit (tcu_regs running_world (TCU_REG_TCSRc (hwpwm pwm0))) 9.
Proof.
  apply (config_control_bits jz4740_platform pwm0 500000 1000000 running_world
           configured_world 9).
  - vm_compute. reflexivity.
  - lia.
Defined.

Lemma config_duty_below_period_witness :
  0 <= tcu_regs configured_world (TCU_REG_TDHRc (hwpwm pwm0))
    < tcu_regs configured_world (TCU_REG_TDFRc (hwpwm pwm0)) /\
  tcu_regs configured_world (TCU_REG_TDFRc (hwpwm pwm0)) <= 65535.
Proof.
  apply (config_duty_below_period jz4740_platform pwm0 500000 1000000 running_world
           configured_world).
  - vm_compute. reflexivity.
  - vm_compute. reflexivity.
Defined.

Lemma config_duty_formula_witness :
  tcu_regs configured_world (TCU_REG_TDHRc (hwpwm pwm0)) =
  Z.min (tcu_regs configured_world (TCU_REG_TDFRc (hwpwm pwm0)) - 1)
        (tcu_regs configured_world (TCU_REG_TDFRc (hwpwm pwm0)) -
         tcu_regs configured_world (TCU_REG_TDFRc (hwpwm pwm0)) * 500000 / 1000000).
Proof.
  apply (config_duty_formula jz4740_platform pwm0 500000 1000000 running_world
           configured_world).
  - unfold INT_MAX. lia.
  - lia.
  - vm_compute. reflexivity.
  - vm_compute. reflexivity.
Defined.

Lemma config_duty_extremes_witness :
  (1000000 = 1000000 ->
   tcu_regs full_duty_world (TCU_REG_TDHRc (hwpwm pwm0)) = 0) /\
  (1000000 = 0 ->
   tcu_regs full_duty_world (TCU_REG_TDHRc (hwpwm pwm0)) =
   tcu_regs full_duty_world (TCU_REG_TDFRc (hwpwm pwm0)) - 1).
Proof.
  apply (config_duty_extremes jz4740_platform pwm0 1000000 1000000 idle_world
           full_duty_world).
  - unfold INT_MAX. lia.
  - vm_compute. reflexivity.
  - vm_compute. reflexivity.
Defined.

Lemma duty_ticks_antitone_witness :
  duty_ticks ILP32 48000 500000 1000000 <= duty_ticks ILP32 48000 250000 1000000.
Proof.
  apply (duty_ticks_antitone ILP32 48000 250000 500000 1000000).
  - lia.
  - unfold INT_MAX. lia.
  - lia.
  - lia.
Defined.

Lemma config_period_exact_witness :
  tcu_regs configured_world (TCU_REG_TDFRc (hwpwm pwm0)) =
  clk_rate configured_world 0%nat * 1000000 / 1000000000.
Proof.
  apply (config_period_exact jz4740_platform pwm0 500000 1000000 running_world
           configured_world 0%nat).
  - unfold INT_MAX. lia.
  - reflexivity.
  - vm_compute. reflexivity.
  - vm_compute. reflexivity.
Defined.

Lemma config_twice_witness :
  exists w2 evs,
    jz4740_pwm_config jz4740_platform pwm0 500000 1000000 configured_world = Done 0 w2 /\
    log w2 = log configured_world ++ evs /\
    (forall k' r', ~ In (EvClkRoundRate k' r') evs) /\
    tcu_regs w2 (TCU_REG_TDFRc (hwpwm pwm0)) =
      tcu_regs configured_world (TCU_REG_TDFRc (hwpwm pwm0)) /\
    tcu_regs w2 (TCU_REG_TDHRc (hwpwm pwm0)) =
      tcu_regs configured_world (TCU_REG_TDHRc (hwpwm pwm0)) /\
    (forall k', clk_rate w2 k' = clk_rate configured_world k').
Proof.
  apply (config_twice jz4740_platform pwm0 500000 1000000 running_world
           configured_world).
  vm_compute. reflexivity.
Defined.

Lemma set_polarity_last_wins_witness :
  tcu_regs
    (world_after
       (jz4740_pwm_set_polarity jz4740_platform pwm0 PWM_POLARITY_NORMAL
          (world_after
             (jz4740_pwm_set_polarity jz4740_platform pwm0 PWM_POLARITY_INVERSED
                idle_world) idle_world)) idle_world) (TCU_REG_TCSRc 0) =
  tcu_regs
    (world_after
       (jz4740_pwm_set_polarity jz4740_platform pwm0 PWM_POLARITY_NORMAL idle_world)
       idle_world) (TCU_REG_TCSRc 0).
Proof.
  apply (set_polarity_last_wins jz4740_platform pwm0
           PWM_POLARITY_INVERSED PWM_POLARITY_NORMAL idle_world
           (world_after
              (jz4740_pwm_set_polarity jz4740_platform pwm0 PWM_POLARITY_INVERSED
                 idle_world) idle_world)).
  - vm_compute. reflexivity.
  - vm_compute. reflexivity.
  - vm_compute. reflexivity.
Defined.

Lemma clk_name_per_channel_witness :
  clk_name 3 = ("timer" ++ NilEmpty.string_of_uint (Nat.to_uint 3))%string /\
  (String.length (clk_name 3) < 16)%nat /\
  (clk_name 3 = clk_name 5 -> 3%nat = 5%nat).
Proof.
  apply (clk_name_per_channel 3 5); unfold NUM_PWM; lia.
Defined.

Lemma probe_registers_bounded_chip_witness :
  chip_npwm {| chip_ops := jz4740_pwm_ops jz4740_platform; chip_npwm := 8;
               chip_base := -1; chip_of_pwm_n_cells := 3 |} =
    num_pwms jz4740_soc_info /\
  (chip_npwm {| chip_ops := jz4740_pwm_ops jz4740_platform; chip_npwm := 8;
                chip_base := -1; chip_of_pwm_n_cells := 3 |} <= NUM_PWM)%nat /\
  chip_base {| chip_ops := jz4740_pwm_ops jz4740_platform; chip_npwm := 8;
               chip_base := -1; chip_of_pwm_n_cells := 3 |} = -1 /\
  chip_of_pwm_n_cells {| chip_ops := jz4740_pwm_ops jz4740_platform; chip_npwm := 8;
                         chip_base := -1; chip_of_pwm_n_cells := 3 |} = 3%nat.
Proof.
  apply (probe_registers_bounded_chip jz4740_platform jz4740_binding
           "ingenic,jz4740-pwm" jz4740_soc_info).
  - simpl. left. reflexivity.
  - reflexivity.
  - simpl. do 4 right. left. reflexivity.
Defined.

(** Binding the sample device registers an eight-channel chip. *)
Example probe_jz4740 :
  jz4740_pwm_probe jz4740_platform jz4740_binding =
  (0, [EvDeviceGetMatchData; EvDevmKzalloc; EvDevGetRegmap; EvPlatformSetDrvdata;
       EvPwmchipAdd {| chip_ops := jz4740_pwm_ops jz4740_platform; chip_npwm := 8;
                       chip_base := -1; chip_of_pwm_n_cells := 3 |}]).
Proof. reflexivity. Qed.

